(** * MultiMCP: the multi-provider tool catalog and invoker

    A shallow embedding of [src/mcp_servers/multiMCP.py] (class [MultiMCP]):
    catalog construction ([initialize]), lookup and dispatch ([call_tool]),
    and the call wrapper ([function_wrapper]) with its three stages
    (string-form call, payload construction, output normalisation).

    What the Python code receives from outside the repository is a
    parameter of the model: CPython's [ast.parse], [ast.literal_eval] and
    [json.loads], and the answers of the provider processes. *)

From Stdlib Require Import ZArith String Ascii List Bool Lia.
From stdpp Require Import base option list strings gmap.

Local Open Scope string_scope.
Local Open Scope list_scope.
Set Warnings "-register-all,-clear-no-such-hyp".

(** ** Python data *)

(** Python values as far as the code handles them: JSON data (the tool
    schemas, the marshaled payloads, the parsed responses) and the literal
    values a call string may carry.  Dictionaries are insertion ordered and
    keyed by strings, as every dictionary the code inspects or builds is.
    A float is carried as its IEEE-754 binary64 bit pattern; the code never
    computes on one. *)
Inductive Value : Type :=
| VNone
| VBool (b : bool)
| VInt (n : Z)
| VFloat (bits : Z)
| VStr (s : string)
| VList (items : list Value)
| VTuple (items : list Value)
| VDict (entries : list (string * Value)).

(** A Python [dict] with string keys, in insertion order. *)
Definition PyDict (V : Type) : Type := list (string * V).

Module Dict.
Section ops.
Context {V : Type}.

(** [d.get(k)] *)
Fixpoint get (k : string) (d : PyDict V) : option V :=
  match d with
  | [] => None
  | (k', v) :: d' => if decide (k' = k) then Some v else get k d'
  end.

(** [d[k] = v]: an existing key keeps its position, a new key goes last. *)
Fixpoint set (k : string) (v : V) (d : PyDict V) : PyDict V :=
  match d with
  | [] => [(k, v)]
  | (k', v') :: d' =>
      if decide (k' = k) then (k', v) :: d' else (k', v') :: set k v d'
  end.

(** [list(d.keys())] and [list(d.values())] *)
Definition keys (d : PyDict V) : list string := d.*1.
Definition values (d : PyDict V) : list V := d.*2.

(** [k in d] *)
Definition mem (k : string) (d : PyDict V) : bool := bool_decide (k ∈ keys d).

(** [dict(pairs)]: later pairs overwrite earlier ones. *)
Definition of_pairs (pairs : list (string * V)) : PyDict V :=
  foldl (λ d kv, set kv.1 kv.2 d) [] pairs.
End ops.
End Dict.

(** ** Python strings

    A string is a sequence of characters with code points below 256. *)

(** [c.isspace()] for such a character: the ASCII white space, the four
    separators 0x1c..0x1f, NEL (0x85) and the no-break space (0xa0). *)
Definition isspace (c : ascii) : bool :=
  let n := nat_of_ascii c in
  ((9 <=? n)%nat && (n <=? 13)%nat) || ((28 <=? n)%nat && (n <=? 32)%nat)
  || (n =? 133)%nat || (n =? 160)%nat.

Fixpoint lstrip (s : string) : string :=
  match s with
  | String c s' => if isspace c then lstrip s' else s
  | EmptyString => EmptyString
  end.

(** [rstrip], by structural recursion: a character is kept when it is not
    white space or when something is kept after it. *)
Fixpoint rstrip (s : string) : string :=
  match s with
  | EmptyString => EmptyString
  | String c s' =>
      match rstrip s' with
      | EmptyString => if isspace c then EmptyString else String c EmptyString
      | r => String c r
      end
  end.

(** [s.strip()] *)
Definition strip (s : string) : string := rstrip (lstrip s).

(** [s.endswith(c)] for a one character string [c] *)
Fixpoint endswith (s : string) (c : ascii) : bool :=
  match s with
  | EmptyString => false
  | String a EmptyString => bool_decide (a = c)
  | String _ s' => endswith s' c
  end.

(** [sub in s]: [sub] occurs in [s] as a contiguous substring. *)
Fixpoint startswith (s pre : string) : bool :=
  match pre, s with
  | EmptyString, _ => true
  | String p pre', String a s' => bool_decide (a = p) && startswith s' pre'
  | String _ _, EmptyString => false
  end.

Fixpoint contains (sub s : string) : bool :=
  startswith s sub ||
  match s with
  | EmptyString => false
  | String _ s' => contains sub s'
  end.

(** ** Exceptions and results *)

(** The text of an exception, [str(e)].  The messages that [MultiMCP]
    formats itself are kept structured; [Text] is a message produced
    elsewhere (a library, a provider), [Builtin] one of the interpreter. *)
Inductive Message : Type :=
| Text (s : string)
| Builtin
| MissingKey (key : Value)
| InvalidFormat
| FailedToParse (tool_name : string) (cause : Message)
| NotFound (tool_name : string)
| NotFoundOnAnyServer (tool_name : string)
| ExpectsArgs (tool_name : string) (expected got : nat).

Inductive ExnClass : Type :=
| ValueError | KeyError | TypeError | AttributeError | IndexError
| OtherError (cls : string).

Record Exn : Type := mkExn { exn_class : ExnClass; exn_msg : Message }.

(** The outcome of a Python expression: a value or a raised exception. *)
Inductive PyResult (A : Type) : Type :=
| OK (a : A)
| Raise (e : Exn).
Arguments OK {A} a.
Arguments Raise {A} e.

#[global] Instance PyResult_ret : MRet PyResult := λ A a, OK a.
#[global] Instance PyResult_fmap : FMap PyResult := λ A B f r,
  match r with
  | OK a => OK (f a)
  | Raise e => Raise e
  end.
#[global] Instance PyResult_bind : MBind PyResult := λ A B f r,
  match r with
  | OK a => f a
  | Raise e => Raise e
  end.

(** The error kinds of the specification, as the exceptions the code
    raises for them: all three are [ValueError]s, told apart by their
    message. *)
Definition ParseError (tool_name : string) (cause : Message) : Exn :=
  mkExn ValueError (FailedToParse tool_name cause).
Definition ToolNotFound (tool_name : string) : Exn :=
  mkExn ValueError (NotFound tool_name).
Definition ArgumentCountError (tool_name : string) (expected actual : nat) : Exn :=
  mkExn ValueError (ExpectsArgs tool_name expected actual).

(** ** Operations on values, with Python's dynamic typing *)

(** [xs[i]] on a sequence *)
Definition py_index {A : Type} (xs : list A) (i : Z) : PyResult A :=
  let j := (if bool_decide (i < 0)%Z then i + Z.of_nat (length xs) else i)%Z in
  if bool_decide (0 ≤ j)%Z then
    match xs !! Z.to_nat j with
    | Some x => OK x
    | None => Raise (mkExn IndexError Builtin)
    end
  else Raise (mkExn IndexError Builtin).

Fixpoint hashable (v : Value) : bool :=
  match v with
  | VList _ | VDict _ => false
  | VTuple xs => forallb hashable xs
  | _ => true
  end.

(** [c[key]] *)
Definition py_getitem (c key : Value) : PyResult Value :=
  match c with
  | VDict d =>
      match key with
      | VStr k =>
          match Dict.get k d with
          | Some v => OK v
          | None => Raise (mkExn KeyError (MissingKey key))
          end
      | _ =>
          if hashable key then Raise (mkExn KeyError (MissingKey key))
          else Raise (mkExn TypeError Builtin)
      end
  | VList xs | VTuple xs =>
      match key with
      | VInt i => py_index xs i
      | VBool b => py_index xs (Z.b2z b)
      | _ => Raise (mkExn TypeError Builtin)
      end
  | VStr s =>
      match key with
      | VInt i => (λ a, VStr (String a EmptyString)) <$> py_index (list_ascii_of_string s) i
      | VBool b =>
          (λ a, VStr (String a EmptyString)) <$> py_index (list_ascii_of_string s) (Z.b2z b)
      | _ => Raise (mkExn TypeError Builtin)
      end
  | _ => Raise (mkExn TypeError Builtin)
  end.

(** [needle in c] for a string [needle] *)
Definition py_in (needle : string) (c : Value) : PyResult bool :=
  match c with
  | VDict d => OK (Dict.mem needle d)
  | VList xs | VTuple xs =>
      OK (existsb (λ x, match x with VStr s => bool_decide (s = needle) | _ => false end) xs)
  | VStr s => OK (contains needle s)
  | _ => Raise (mkExn TypeError Builtin)
  end.

(** [next(iter(c), None)] *)
Definition py_next_iter (c : Value) : PyResult Value :=
  match c with
  | VDict d => OK (default VNone (head (VStr <$> Dict.keys d)))
  | VList xs | VTuple xs => OK (default VNone (head xs))
  | VStr s =>
      OK (match s with
          | String a _ => VStr (String a EmptyString)
          | EmptyString => VNone
          end)
  | _ => Raise (mkExn TypeError Builtin)
  end.

(** [list(c.keys())] *)
Definition py_keys (c : Value) : PyResult (list string) :=
  match c with
  | VDict d => OK (Dict.keys d)
  | _ => Raise (mkExn AttributeError Builtin)
  end.

(** ** The syntax trees of [ast]

    The node classes of Python's [ast] module that a call string can parse
    to, as far as [function_wrapper] tells them apart; [Other] stands for
    every remaining expression class (operators, subscripts, lambdas, ...). *)
Module ast.
Inductive expr : Type :=
| Constant (value : Value)
| Name (id : string)
| Attribute (value : expr) (attr : string)
| Call (func : expr) (args : list expr) (keywords : list (option string * expr))
| Starred (value : expr)
| List (elts : list expr)
| Tuple (elts : list expr)
| Other (cls : string).
End ast.

(** ** Providers, tools and the catalog *)

(** One element of [server_configs].  The code reads ["script"] and ["id"]
    by subscript and ["cwd"] with [get]. *)
Record Config : Type := mkConfig {
  cfg_script : string;
  cfg_id : string;
  cfg_cwd : option string
}.

(** A tool as a provider lists it ([mcp.types.Tool]). *)
Record Tool : Type := mkTool {
  name : string;
  description : option string;
  inputSchema : PyDict Value
}.

(** A value of [tool_map]: [{"config": config, "tool": tool}]. *)
Record Entry : Type := mkEntry { config : Config; tool : Tool }.

(** The state of a [MultiMCP] object.  [tool_map] keeps its insertion
    order, which [list_all_tools] returns; [server_tools] is only ever read
    by key. *)
Record MultiMCP : Type := mkMultiMCP {
  server_configs : list Config;
  tool_map : PyDict Entry;
  server_tools : gmap string (list Tool)
}.

(** [MultiMCP.__init__] *)
Definition new (configs : list Config) : MultiMCP :=
  {| server_configs := configs; tool_map := []; server_tools := ∅ |}.

Record StdioServerParameters : Type := mkParams {
  command : string;
  args : list string;
  cwd : string
}.

(** What a provider process does when [initialize] scans it: the
    exception that reaches a handler of the loop body, or the tools listed.
    The first case is caught by the outer handler, the next three by the
    inner one.  The exceptions are instances of [Exception]; one raised
    while a context is left after the listing would add a warning line and
    change neither map, and is not modelled. *)
Inductive Discovery : Type :=
| ConnectRaises (e : Exn)
| SessionRaises (se : Exn)
| HandshakeRaises (se : Exn)
| ListToolsRaises (se : Exn)
| Listed (tools : list Tool).

(** The lines [initialize] prints, one constructor per [print]. *)
Inductive Printed : Type :=
| InInitialize
| Scanning (script dir : string)
| ConnectionEstablished
| SessionCreated
| SessionInitialized
| ToolsReceived (names : list string)
| SessionErrorLine (se : Message)
| InitErrorLine (script : string) (e : Message).

(** The response of a provider to [call_tool] ([mcp.types.CallToolResult])
    and its content parts; only a [TextContent] has a [text] attribute. *)
Inductive ContentPart : Type :=
| TextContent (text : string)
| ImageContent (data mimeType : string)
| EmbeddedResource (uri : string).

Record CallToolResult : Type := mkResult {
  content : list ContentPart;
  isError : bool
}.

(** What [function_wrapper] returns: a parsed value, or the raw response
    when it cannot be parsed. *)
Inductive Normalized : Type :=
| Plain (v : Value)
| Raw (result : CallToolResult).

(** A session opened by [call_tool] to a provider process. *)
Record Dispatch : Type := mkDispatch {
  d_params : StdioServerParameters;
  d_tool_name : string;
  d_arguments : Value
}.

(** ** The class [MultiMCP] *)

(** What the code takes from its environment: [sys.executable] and
    [os.getcwd()]; CPython's [ast.parse(s, mode='eval').body],
    [ast.literal_eval] on a node and [json.loads]; and the provider process
    launched with given parameters, asked to run a tool in a fresh session. *)
Class Runtime : Type := mkRuntime {
  sys_executable : string;
  getcwd : string;
  ast_parse : string → PyResult ast.expr;
  literal_eval : ast.expr → PyResult Value;
  json_loads : string → PyResult Value;
  session_call_tool : StdioServerParameters → string → Value → PyResult CallToolResult
}.

Section MultiMCP.
Context `{!Runtime}.

Definition server_params (config : Config) : StdioServerParameters :=
  {| command := sys_executable;
     args := [cfg_script config];
     cwd := default getcwd (cfg_cwd config) |}.

(** *** [initialize] *)

(** The body of [for tool in tools.tools] *)
Definition register_tool (config : Config) (self : MultiMCP) (tool : Tool) : MultiMCP :=
  let server_key := cfg_id config in
  {| server_configs := server_configs self;
     tool_map := Dict.set (name tool) {| config := config; tool := tool |} (tool_map self);
     server_tools :=
       <[server_key := default [] (server_tools self !! server_key) ++ [tool]]>
         (server_tools self) |}.

(** The body of [for config in self.server_configs], given what the
    provider does. *)
Definition scan_provider (config : Config) (d : Discovery) (self : MultiMCP)
  : MultiMCP * list Printed :=
  let params := server_params config in
  let scanning := Scanning (cfg_script config) (cwd params) in
  match d with
  | ConnectRaises e =>
      (self, [scanning; InitErrorLine (cfg_script config) (exn_msg e)])
  | SessionRaises se =>
      (self, [scanning; ConnectionEstablished; SessionErrorLine (exn_msg se)])
  | HandshakeRaises se =>
      (self, [scanning; ConnectionEstablished; SessionCreated;
              SessionErrorLine (exn_msg se)])
  | ListToolsRaises se =>
      (self, [scanning; ConnectionEstablished; SessionCreated; SessionInitialized;
              SessionErrorLine (exn_msg se)])
  | Listed tools =>
      (foldl (register_tool config) self tools,
       [scanning; ConnectionEstablished; SessionCreated; SessionInitialized;
        ToolsReceived (name <$> tools)])
  end.

(** The loop over the configurations; [scan i params] is what the process
    launched for the [i]-th remaining configuration does. *)
Fixpoint initialize_loop (scan : nat → StdioServerParameters → Discovery)
    (configs : list Config) (self : MultiMCP) : MultiMCP * list Printed :=
  match configs with
  | [] => (self, [])
  | config :: rest =>
      let '(self1, out1) := scan_provider config (scan 0 (server_params config)) self in
      let '(self2, out2) := initialize_loop (λ i, scan (S i)) rest self1 in
      (self2, out1 ++ out2)
  end.

Definition initialize (scan : nat → StdioServerParameters → Discovery) (self : MultiMCP)
  : MultiMCP * list Printed :=
  let '(self', out) := initialize_loop scan (server_configs self) self in
  (self', InInitialize :: out).

(** *** [list_all_tools], [get_all_tools], [get_tools_from_servers] *)

Definition list_all_tools (self : MultiMCP) : list string :=
  Dict.keys (tool_map self).

Definition get_all_tools (self : MultiMCP) : list Tool :=
  tool <$> Dict.values (tool_map self).

Definition get_tools_from_servers (self : MultiMCP) (selected_servers : list string)
  : list Tool :=
  foldl (λ tools server,
           match server_tools self !! server with
           | Some ts => tools ++ ts
           | None => tools
           end) [] selected_servers.

(** *** [call_tool] *)

(** The sessions opened so far, with the outcome. *)
Definition Traced (A : Type) : Type := list Dispatch * PyResult A.

Definition call_tool (self : MultiMCP) (tool_name : string) (arguments : Value)
  : Traced CallToolResult :=
  match Dict.get tool_name (tool_map self) with
  | None => ([], Raise (mkExn ValueError (NotFoundOnAnyServer tool_name)))
  | Some entry =>
      let params := server_params (config entry) in
      ([mkDispatch params tool_name arguments],
       session_call_tool params tool_name arguments)
  end.

(** *** [function_wrapper] *)

(** The body of the [try] that handles a string-form call: the value of
    the variable [tool_name] when the body is left, and the arguments read
    or the exception raised.  [tool_name] is reassigned before the
    arguments are evaluated. *)
Definition string_form_body (tool_name stripped : string)
  : string * PyResult (list Value) :=
  match ast_parse stripped with
  | Raise e => (tool_name, Raise e)
  | OK expr =>
      match expr with
      | ast.Call (ast.Name id) eargs _ => (id, mapM literal_eval eargs)
      | _ => (tool_name, Raise (mkExn ValueError InvalidFormat))
      end
  end.

(** The first block of [function_wrapper]: the tool name and the arguments
    with which the rest of the function runs. *)
Definition string_form_call (tool_name : string) (args : list Value)
  : PyResult (string * list Value) :=
  if bool_decide (length args = 0) then
    let stripped := strip tool_name in
    if endswith stripped ")" && contains "(" stripped then
      match string_form_body tool_name stripped with
      | (tool_name', OK args') => OK (tool_name', args')
      | (tool_name', Raise e) => Raise (ParseError tool_name' (exn_msg e))
      end
    else OK (tool_name, args)
  else OK (tool_name, args).

(** The block that builds the input payload [params] from the schema. *)
Definition build_input_payload (tool_name : string) (schema : PyDict Value)
    (args : list Value) : PyResult Value :=
  wrapped ← py_in "input" (default (VDict []) (Dict.get "properties" schema));
  if (wrapped : bool) then
    inner_key ← py_next_iter (default (VDict []) (Dict.get "$defs" schema));
    defs ← py_getitem (VDict schema) (VStr "$defs");
    inner_def ← py_getitem defs inner_key;
    inner_props ← py_getitem inner_def (VStr "properties");
    param_names ← py_keys inner_props;
    if bool_decide (length param_names ≠ length args) then
      Raise (ArgumentCountError tool_name (length param_names) (length args))
    else
      OK (VDict [("input", VDict (Dict.of_pairs (zip param_names args)))])
  else
    props ← py_getitem (VDict schema) (VStr "properties");
    param_names ← py_keys props;
    if bool_decide (length param_names ≠ length args) then
      Raise (ArgumentCountError tool_name (length param_names) (length args))
    else
      OK (VDict (Dict.of_pairs (zip param_names args))).

(** The body of the [try] that normalises the output. *)
Definition parse_output (result : CallToolResult) : PyResult Value :=
  part ← py_index (content result) 0;
  text ← match part with
         | TextContent text => OK text
         | _ => Raise (mkExn AttributeError Builtin)
         end;
  let content_text := strip text in
  parsed ← json_loads content_text;
  match parsed with
  | VDict d =>
      if Dict.mem "result" d then py_getitem parsed (VStr "result")
      else if bool_decide (length d = 1) then py_index (Dict.values d) 0
      else OK parsed
  | _ => OK parsed
  end.

(** The [try] with its handler: any exception gives the raw result back. *)
Definition normalize_output (result : CallToolResult) : Normalized :=
  match parse_output result with
  | OK v => Plain v
  | Raise _ => Raw result
  end.

Definition function_wrapper (self : MultiMCP) (tool_name : string) (args : list Value)
  : Traced Normalized :=
  match string_form_call tool_name args with
  | Raise e => ([], Raise e)
  | OK (tool_name, args) =>
      match Dict.get tool_name (tool_map self) with
      | None => ([], Raise (ToolNotFound tool_name))
      | Some tool_entry =>
          let schema := inputSchema (tool tool_entry) in
          match build_input_payload tool_name schema args with
          | Raise e => ([], Raise e)
          | OK params =>
              let '(trace, r) := call_tool self tool_name params in
              (trace, normalize_output <$> r)
          end
      end
  end.

End MultiMCP.

(** ** Sample data

    Schemas as FastMCP generates them for the declarations of
    [mcp_server_4.py], two provider configurations, and a runtime whose
    library functions are tabulated on the strings used below. *)

(** The double quote character, as a string. *)
Definition dq : string := String (ascii_of_nat 34) EmptyString.

Definition int_property (title : string) : Value :=
  VDict [("title", VStr title); ("type", VStr "integer")].

(** The definition of the model [AddInput] (fields [a] and [b]). *)
Definition AddInput_def : Value :=
  VDict [("properties", VDict [("a", int_property "A"); ("b", int_property "B")]);
         ("required", VList [VStr "a"; VStr "b"]);
         ("title", VStr "AddInput");
         ("type", VStr "object")].

(** [def add(input: AddInput)]: one property [input] that refers to
    [AddInput]. *)
Definition add_schema : PyDict Value :=
  [("$defs", VDict [("AddInput", AddInput_def)]);
   ("properties", VDict [("input", VDict [("$ref", VStr "#/$defs/AddInput")])]);
   ("required", VList [VStr "input"]);
   ("title", VStr "addArguments");
   ("type", VStr "object")].

(** [def multiply(a, b)]: two plain properties. *)
Definition multiply_schema : PyDict Value :=
  [("properties", VDict [("a", VDict [("title", VStr "A")]);
                         ("b", VDict [("title", VStr "B")])]);
   ("required", VList [VStr "a"; VStr "b"]);
   ("title", VStr "multiplyArguments");
   ("type", VStr "object")].

(** [def add(data: AddInput)]: the same indirection under another
    parameter name. *)
Definition data_schema : PyDict Value :=
  [("$defs", VDict [("AddInput", AddInput_def)]);
   ("properties", VDict [("data", VDict [("$ref", VStr "#/$defs/AddInput")])]);
   ("required", VList [VStr "data"]);
   ("title", VStr "addArguments");
   ("type", VStr "object")].

Definition add_tool : Tool := mkTool "add" (Some "Adds two numbers.") add_schema.
Definition multiply_tool : Tool :=
  mkTool "multiply" (Some "Multiplies two numbers.") multiply_schema.
Definition add_tool_4 : Tool := mkTool "add" (Some "Adds two numbers (server 4).") add_schema.
Definition add_data_tool : Tool := mkTool "add" (Some "Adds two numbers.") data_schema.

Definition math_config : Config := mkConfig "mcp_server_1.py" "math" (Some "/srv/mcp").
Definition mixed_config : Config := mkConfig "mcp_server_4.py" "mixed" None.

(** Answers of [ast.parse(s, mode='eval').body] on the call strings of the
    examples; the last line is a string that is no Python expression. *)
Definition sample_ast_parse (s : string) : PyResult ast.expr :=
  if decide (s = "add(45, 55)") then
    OK (ast.Call (ast.Name "add")
          [ast.Constant (VInt 45); ast.Constant (VInt 55)] [])
  else if decide (s = "add(x, 1)") then
    OK (ast.Call (ast.Name "add") [ast.Name "x"; ast.Constant (VInt 1)] [])
  else if decide (s = "add(a=x)") then
    OK (ast.Call (ast.Name "add") [] [(Some "a", ast.Name "x")])
  else if decide (s = "math.add(1, 2)") then
    OK (ast.Call (ast.Attribute (ast.Name "math") "add")
          [ast.Constant (VInt 1); ast.Constant (VInt 2)] [])
  else if decide (s = "(45)") then OK (ast.Constant (VInt 45))
  else Raise (mkExn (OtherError "SyntaxError") (Text "invalid syntax")).

(** [ast.literal_eval] on constants and on displays of them; a name, an
    attribute or a call is not a literal. *)
Fixpoint sample_literal_eval (e : ast.expr) : PyResult Value :=
  match e with
  | ast.Constant v => OK v
  | ast.List elts => VList <$> mapM sample_literal_eval elts
  | ast.Tuple elts => VTuple <$> mapM sample_literal_eval elts
  | _ => Raise (mkExn ValueError (Text "malformed node or string"))
  end.

Definition result_7_text : string := "{" ++ dq ++ "result" ++ dq ++ ": 7}".
Definition ascii_values_text : string :=
  "{" ++ dq ++ "ascii_values" ++ dq ++ ": [1, 2, 3]}".
Definition two_keys_text : string :=
  "{" ++ dq ++ "a" ++ dq ++ ": 1, " ++ dq ++ "b" ++ dq ++ ": 2}".

(** Answers of [json.loads] on the response texts of the examples. *)
Definition sample_json_loads (s : string) : PyResult Value :=
  if decide (s = result_7_text) then OK (VDict [("result", VInt 7)])
  else if decide (s = ascii_values_text) then
    OK (VDict [("ascii_values", VList [VInt 1; VInt 2; VInt 3])])
  else if decide (s = two_keys_text) then OK (VDict [("a", VInt 1); ("b", VInt 2)])
  else if decide (s = "[1, 2]") then OK (VList [VInt 1; VInt 2])
  else if decide (s = "42") then OK (VInt 42)
  else Raise (mkExn ValueError (Text "Expecting value: line 1 column 1 (char 0)")).

(** A provider that answers every call with the text of [{"result": 7}]. *)
Definition sample_session_call_tool (params : StdioServerParameters)
    (tool_name : string) (arguments : Value) : PyResult CallToolResult :=
  OK (mkResult [TextContent result_7_text] false).

Definition sample_runtime : Runtime :=
  {| sys_executable := "/usr/bin/python3";
     getcwd := "/home/agent";
     ast_parse := sample_ast_parse;
     literal_eval := sample_literal_eval;
     json_loads := sample_json_loads;
     session_call_tool := sample_session_call_tool |}.

(** Two providers that both declare a tool named [add]; the second also
    declares [multiply]. *)
Definition two_providers : list Config := [math_config; mixed_config].
Definition both_list_add (i : nat) (params : StdioServerParameters) : Discovery :=
  match i with
  | 0 => Listed [add_tool]
  | _ => Listed [add_tool_4; multiply_tool]
  end.

(** The first provider fails to start, the second lists its tools. *)
Definition first_fails (i : nat) (params : StdioServerParameters) : Discovery :=
  match i with
  | 0 => ConnectRaises (mkExn (OtherError "FileNotFoundError") (Text "No such file"))
  | _ => Listed [add_tool_4; multiply_tool]
  end.

(** ** Specification side of catalog construction *)

Section Declared.
Context `{!Runtime}.

(** The tools declared by the providers whose listing succeeds, each with
    the configuration of its provider, in declaration order. *)
Fixpoint declared (scan : nat → StdioServerParameters → Discovery)
    (configs : list Config) : list Entry :=
  match configs with
  | [] => []
  | config :: rest =>
      match scan 0 (server_params config) with
      | Listed tools => mkEntry config <$> tools
      | _ => []
      end ++ declared (λ i, scan (S i)) rest
  end.

(** The warning line due for a provider, if its discovery fails. *)
Definition warning (config : Config) (d : Discovery) : option Printed :=
  match d with
  | ConnectRaises e => Some (InitErrorLine (cfg_script config) (exn_msg e))
  | SessionRaises se | HandshakeRaises se | ListToolsRaises se =>
      Some (SessionErrorLine (exn_msg se))
  | Listed _ => None
  end.

Definition is_warning (line : Printed) : bool :=
  match line with
  | SessionErrorLine _ | InitErrorLine _ _ => true
  | _ => false
  end.

(** The state after registering a list of entries one by one. *)
Definition register_entries (self : MultiMCP) (entries : list Entry) : MultiMCP :=
  foldl (λ s e, register_tool (config e) s (tool e)) self entries.

End Declared.

(** ** Argument marshaling: the branches of the code and the shapes of
    the specification *)

(** The condition under which [function_wrapper] takes its first branch,
    and the properties it then counts and zips: some top-level property is
    named [input], and [inner] are the properties of the first entry of
    [$defs]. *)
Definition wrapped_branch (schema : PyDict Value) (inner : PyDict Value) : Prop :=
  ∃ props key def rest,
    Dict.get "properties" schema = Some (VDict props) ∧
    "input" ∈ Dict.keys props ∧
    Dict.get "$defs" schema = Some (VDict ((key, VDict def) :: rest)) ∧
    Dict.get "properties" def = Some (VDict inner).


(** [s] without the prefix [pre], if it starts with it. *)
Fixpoint drop_prefix (pre s : string) : option string :=
  match pre with
  | EmptyString => Some s
  | String p pre' =>
      match s with
      | String a s' => if decide (a = p) then drop_prefix pre' s' else None
      | EmptyString => None
      end
  end.

(** The definition that a property refers to: the name in
    [{"$ref": "#/$defs/<name>"}]. *)
Definition ref_target (prop : Value) : option string :=
  match prop with
  | VDict d =>
      match Dict.get "$ref" d with
      | Some (VStr r) => drop_prefix "#/$defs/" r
      | _ => None
      end
  | _ => None
  end.

(** The Wrapped shape in the words of the specification: exactly one
    top-level property, [p], which refers to another definition, [key],
    whose properties are the inner properties. *)
Definition wrapped_shape (schema : PyDict Value) (p key : string)
    (inner : PyDict Value) : Prop :=
  ∃ prop defs def,
    Dict.get "properties" schema = Some (VDict [(p, prop)]) ∧
    ref_target prop = Some key ∧
    Dict.get "$defs" schema = Some (VDict defs) ∧
    Dict.get key defs = Some (VDict def) ∧
    Dict.get "properties" def = Some (VDict inner).

(** The Flat shape: the declared properties of a schema that is not of
    the Wrapped shape. *)
Definition flat_shape (schema : PyDict Value) (props : PyDict Value) : Prop :=
  Dict.get "properties" schema = Some (VDict props) ∧
  ∀ p key inner, ¬ wrapped_shape schema p key inner.

(** The name of the definition listed first under [$defs]. *)
Definition first_definition (schema : PyDict Value) : option string :=
  match Dict.get "$defs" schema with
  | Some (VDict ((key, _) :: _)) => Some key
  | _ => None
  end.

(** The test of the first block of [function_wrapper] on the stripped
    string. *)
Definition call_shaped (tool_name : string) : bool :=
  endswith (strip tool_name) ")" && contains "(" (strip tool_name).

(** The catalog built from one provider that lists the single tool [t]. *)
Definition catalog_of (t : Tool) : MultiMCP :=
  (@initialize sample_runtime (λ _ _, Listed [t]) (new [math_config])).1.

(** ** The rest of [multiMCP.py]: the class [MCP] and
    [tool_description_wrapper] *)

(** A single-provider client ([class MCP]). *)
Record MCP : Type := mkMCP {
  server_script : string;
  working_dir : string;
  server_command : string
}.

(** [x or y] for an optional string [x]: [None] and the empty string are
    false. *)
Definition py_or (x : option string) (y : string) : string :=
  match x with
  | Some (String a s) => String a s
  | Some EmptyString | None => y
  end.

(** [", ".join(xs)] on strings *)
Fixpoint join (sep : string) (xs : list string) : string :=
  match xs with
  | [] => EmptyString
  | [x] => x
  | x :: rest => (x ++ sep ++ join sep rest)%string
  end.

(** [sep.join(xs)]: every item must be a string. *)
Definition py_join (sep : string) (xs : list Value) : PyResult string :=
  strs ← mapM (λ x, match x with
                    | VStr s => OK s
                    | _ => Raise (mkExn TypeError Builtin)
                    end) xs;
  OK (join sep strs).

(** [list(c.items())] *)
Definition py_items (c : Value) : PyResult (list (string * Value)) :=
  match c with
  | VDict d => OK d
  | _ => Raise (mkExn AttributeError Builtin)
  end.

(** [c.get(k, dflt)] *)
Definition py_get (c : Value) (k : string) (dflt : Value) : PyResult Value :=
  match c with
  | VDict d => OK (default dflt (Dict.get k d))
  | _ => Raise (mkExn AttributeError Builtin)
  end.

Section Rest.
Context `{!Runtime}.

(** [MCP.__init__]; [None] for [server_script] is the omitted argument. *)
Definition MCP_init (script : option string) (dir : option string)
    (cmd : option string) : MCP :=
  {| server_script := default "mcp_server_2.py" script;
     working_dir := py_or dir getcwd;
     server_command := py_or cmd sys_executable |}.

Definition MCP_params (self : MCP) : StdioServerParameters :=
  {| command := server_command self;
     args := [server_script self];
     cwd := working_dir self |}.

(** [MCP.list_tools], given what the provider process does: no handler,
    every exception propagates. *)
Definition MCP_list_tools (self : MCP) (scan : StdioServerParameters → Discovery)
  : PyResult (list Tool) :=
  match scan (MCP_params self) with
  | ConnectRaises e | SessionRaises e | HandshakeRaises e | ListToolsRaises e => Raise e
  | Listed tools => OK tools
  end.

(** [MCP.call_tool] *)
Definition MCP_call_tool (self : MCP) (tool_name : string) (arguments : Value)
  : Traced CallToolResult :=
  ([mkDispatch (MCP_params self) tool_name arguments],
   session_call_tool (MCP_params self) tool_name arguments).

End Rest.

(** The properties that [tool_description_wrapper] reads for a tool: the
    same selection as in [function_wrapper]. *)
Definition description_props (schema : PyDict Value) : PyResult Value :=
  wrapped ← py_in "input" (default (VDict []) (Dict.get "properties" schema));
  if (wrapped : bool) then
    inner_key ← py_next_iter (default (VDict []) (Dict.get "$defs" schema));
    defs ← py_getitem (VDict schema) (VStr "$defs");
    inner_def ← py_getitem defs inner_key;
    py_getitem inner_def (VStr "properties")
  else
    py_getitem (VDict schema) (VStr "properties").

(** The loop [for k, v in props.items()] that collects [arg_types]. *)
Definition arg_types (props : Value) : PyResult (list Value) :=
  items ← py_items props;
  mapM (λ kv, py_get kv.2 "type" (VStr "any")) items.

(** The body of [for tool in self.get_all_tools()]: the line appended to
    [examples].  A description that is [None] prints as [None]. *)
Definition describe_tool (t : Tool) : PyResult string :=
  props ← description_props (inputSchema t);
  types ← arg_types props;
  signature_str ← py_join ", " types;
  OK (name t ++ "(" ++ signature_str ++ ")  # " ++ default "None" (description t))%string.

Definition tool_description_wrapper (self : MultiMCP) : PyResult (list string) :=
  mapM describe_tool (get_all_tools self).

(** ** A provider tool: [fibonacci_numbers] of [mcp_server_1.py] *)

(** One round of the loop: [fib_sequence.append(fib_sequence[-1] +
    fib_sequence[-2])]. *)
Definition fib_append (fib_sequence : list Z) : PyResult (list Z) :=
  a ← py_index fib_sequence (-1);
  b ← py_index fib_sequence (-2);
  OK (fib_sequence ++ [(a + b)%Z]).

(** [for _ in range(2, n)], as [rounds] rounds *)
Fixpoint fib_loop (rounds : nat) (fib_sequence : list Z) : PyResult (list Z) :=
  match rounds with
  | O => OK fib_sequence
  | S rounds' => fib_sequence' ← fib_append fib_sequence; fib_loop rounds' fib_sequence'
  end.

(** The list in the [result] field of the output. *)
Definition fibonacci_numbers (n : Z) : PyResult (list Z) :=
  if bool_decide (n ≤ 0)%Z then OK []
  else
    fib_sequence ← fib_loop (Z.to_nat (n - 2)) [0%Z; 1%Z];
    OK (take (Z.to_nat n) fib_sequence).

(** ** Specification side of the further properties *)

(** The Fibonacci numbers. *)
Fixpoint fib (i : nat) : Z :=
  match i with
  | O => 0
  | S i' =>
      match i' with
      | O => 1
      | S i'' => fib i' + fib i''
      end
  end%Z.

(** The tools that the entries [es] record for the provider id [pid]. *)
Definition group (es : list Entry) (pid : string) : list Tool :=
  tool <$> filter (λ e, cfg_id (config e) = pid) es.

(** The distinct items of a list, in the order of their first
    occurrence. *)
Definition first_occurrences (l : list string) : list string :=
  foldl (λ acc x, if decide (x ∈ acc) then acc else acc ++ [x]) [] l.

(** A string of white space only. *)
Fixpoint all_space (s : string) : bool :=
  match s with
  | EmptyString => true
  | String c s' => isspace c && all_space s'
  end.

(** A tool with the single, plain string parameter [input]
    ([def f(input: str)]): no definition is referred to. *)
Definition plain_input_schema : PyDict Value :=
  [("properties", VDict [("input", VDict [("title", VStr "Input");
                                          ("type", VStr "string")])]);
   ("required", VList [VStr "input"]);
   ("title", VStr "echoArguments");
   ("type", VStr "object")].
Definition echo_tool : Tool := mkTool "echo" (Some "Echoes its input.") plain_input_schema.

(** * Properties *)

(** ** Dictionaries *)

Module DictFacts.
Section facts.
Context {V : Type}.
Implicit Types (k : string) (v : V) (d : PyDict V).

Lemma get_set_eq k v d : Dict.get k (Dict.set k v d) = Some v.
Proof.
  induction d as [|[k' v'] d IH]; simpl.
  - by rewrite decide_True.
  - destruct (decide (k' = k)) as [->|Hne]; simpl.
    + by rewrite decide_True.
    + by rewrite decide_False.
Qed.

Lemma get_set_ne k k' v d : k ≠ k' → Dict.get k' (Dict.set k v d) = Dict.get k' d.
Proof.
  intros Hne. induction d as [|[k0 v0] d IH]; simpl.
  - by rewrite decide_False.
  - destruct (decide (k0 = k)) as [->|Hk]; simpl.
    + by rewrite !decide_False.
    + by rewrite IH.
Qed.

Lemma set_fresh k v d : k ∉ Dict.keys d → Dict.set k v d = d ++ [(k, v)].
Proof.
  induction d as [|[k0 v0] d IH]; simpl; [done|].
  rewrite not_elem_of_cons. intros [Hne Hd].
  rewrite decide_False by done. by rewrite IH.
Qed.

Lemma keys_set_old k v d : k ∈ Dict.keys d → Dict.keys (Dict.set k v d) = Dict.keys d.
Proof.
  induction d as [|[k0 v0] d IH]; simpl.
  - by intros ?%elem_of_nil.
  - destruct (decide (k0 = k)) as [->|Hk]; simpl; [done|].
    rewrite elem_of_cons. intros [->|Hin]; [done|].
    f_equal. by apply IH.
Qed.

Lemma elem_of_keys_set k k' v d :
  k' ∈ Dict.keys (Dict.set k v d) ↔ k' = k ∨ k' ∈ Dict.keys d.
Proof.
  destruct (decide (k ∈ Dict.keys d)) as [Hin|Hout].
  - rewrite keys_set_old by done. naive_solver.
  - rewrite set_fresh by done. unfold Dict.keys.
    rewrite fmap_app, elem_of_app. simpl. rewrite list_elem_of_singleton. naive_solver.
Qed.

Lemma NoDup_keys_set k v d : NoDup (Dict.keys d) → NoDup (Dict.keys (Dict.set k v d)).
Proof.
  intros Hd. destruct (decide (k ∈ Dict.keys d)) as [Hin|Hout].
  - by rewrite keys_set_old.
  - rewrite set_fresh by done. unfold Dict.keys in *.
    rewrite fmap_app. apply NoDup_app. split; [done|]. split.
    + intros x Hx ?%list_elem_of_singleton. by subst.
    + apply NoDup_singleton.
Qed.

Lemma elem_of_keys_get k d : k ∈ Dict.keys d ↔ is_Some (Dict.get k d).
Proof.
  induction d as [|[k0 v0] d IH]; simpl.
  - split; [by intros ?%elem_of_nil | by intros [? ?]].
  - rewrite elem_of_cons. destruct (decide (k0 = k)) as [->|Hk]; simpl.
    + naive_solver.
    + rewrite <- IH. naive_solver.
Qed.

Lemma get_Some_elem_of k v d : Dict.get k d = Some v → (k, v) ∈ d.
Proof.
  induction d as [|[k0 v0] d IH]; simpl; [done|].
  destruct (decide (k0 = k)) as [->|Hk].
  - intros [= ->]. by left.
  - intros Hget. right. by apply IH.
Qed.

Lemma mem_true k d : Dict.mem k d = true ↔ k ∈ Dict.keys d.
Proof. unfold Dict.mem. by rewrite bool_decide_eq_true. Qed.

Lemma mem_false k d : Dict.mem k d = false ↔ k ∉ Dict.keys d.
Proof. unfold Dict.mem. by rewrite bool_decide_eq_false. Qed.

Lemma foldl_set_zip (ks : list string) (vs : list V) d :
  NoDup ks → (∀ k, k ∈ ks → k ∉ Dict.keys d) →
  foldl (λ d kv, Dict.set kv.1 kv.2 d) d (zip ks vs) = d ++ zip ks vs.
Proof.
  revert vs d. induction ks as [|k ks IH]; intros vs d Hnd Hfresh; simpl.
  - by rewrite app_nil_r.
  - destruct vs as [|v vs]; simpl; [by rewrite app_nil_r|].
    apply NoDup_cons in Hnd as [Hk Hnd].
    rewrite set_fresh by (apply Hfresh; left).
    rewrite IH; [by rewrite <- app_assoc | done |].
    intros k' Hk'. unfold Dict.keys. rewrite fmap_app, elem_of_app. simpl.
    rewrite list_elem_of_singleton. intros [Hin| ->]; [|done].
    apply (Hfresh k'); [by right | done].
Qed.

(** [dict(zip(names, values))] lists the pairs in order when the names are
    distinct, as the keys of a dictionary are. *)
Lemma of_pairs_zip (ks : list string) (vs : list V) :
  NoDup ks → Dict.of_pairs (zip ks vs) = zip ks vs.
Proof.
  intros Hnd. unfold Dict.of_pairs. rewrite foldl_set_zip; [done | done |].
  intros k _. apply not_elem_of_nil.
Qed.

End facts.
End DictFacts.

(** ** Catalog construction *)

(** A key that occurs in a list has a last occurrence. *)
Lemma last_occurrence {A : Type} (key : A → string) (l : list A) (n : string) :
  n ∈ key <$> l →
  ∃ pre x post, l = pre ++ x :: post ∧ key x = n ∧ ∀ y, y ∈ post → key y ≠ n.
Proof.
  induction l as [|y l IH] using rev_ind; [by intros ?%elem_of_nil|].
  rewrite fmap_app, elem_of_app. simpl. rewrite list_elem_of_singleton. intros Hin.
  destruct (decide (key y = n)) as [Hy|Hy].
  - exists l, y, []. split; [done|]. split; [done|]. by intros ? ?%elem_of_nil.
  - destruct IH as (pre & x & post & -> & Hx & Hpost); [naive_solver|].
    exists pre, x, (post ++ [y]). split; [by rewrite <- app_assoc|]. split; [done|].
    intros z [?| ->%list_elem_of_singleton]%elem_of_app; [by apply Hpost | done].
Qed.

Section CatalogFacts.
Context `{!Runtime}.
Implicit Types (self : MultiMCP) (e : Entry) (es : list Entry) (n : string).

Lemma register_entries_app self es1 es2 :
  register_entries self (es1 ++ es2) = register_entries (register_entries self es1) es2.
Proof. unfold register_entries. by rewrite foldl_app. Qed.

Lemma foldl_register_tool c self (tools : list Tool) :
  foldl (register_tool c) self tools = register_entries self (mkEntry c <$> tools).
Proof.
  revert self. induction tools as [|t tools IH]; intros self; simpl; [done|].
  by rewrite IH.
Qed.

(** [initialize] registers the declared entries, in order, and nothing
    else. *)
Lemma initialize_loop_declared scan configs self :
  (initialize_loop scan configs self).1 = register_entries self (declared scan configs).
Proof.
  revert scan self. induction configs as [|c configs IH]; intros scan self; simpl; [done|].
  destruct (scan_provider c (scan 0 (server_params c)) self) as [self1 out1] eqn:Hscan.
  specialize (IH (λ i, scan (S i)) self1).
  destruct (initialize_loop (λ i, scan (S i)) configs self1) as [self2 out2]; simpl in *.
  rewrite register_entries_app, IH. f_equal.
  unfold scan_provider in Hscan.
  destruct (scan 0 (server_params c)); simplify_eq; try done.
  by rewrite foldl_register_tool.
Qed.

Lemma initialize_declared scan self :
  (initialize scan self).1 = register_entries self (declared scan (server_configs self)).
Proof.
  unfold initialize.
  pose proof (initialize_loop_declared scan (server_configs self) self) as Hloop.
  by destruct (initialize_loop scan (server_configs self) self).
Qed.

Lemma register_entries_snoc self es e :
  register_entries self (es ++ [e]) = register_tool (config e) (register_entries self es) (tool e).
Proof. by rewrite register_entries_app. Qed.

Lemma keys_register_entries self es n :
  n ∈ Dict.keys (tool_map (register_entries self es)) ↔
  n ∈ Dict.keys (tool_map self) ∨ n ∈ (λ e, name (tool e)) <$> es.
Proof.
  induction es as [|e es IH] using rev_ind.
  - simpl. rewrite elem_of_nil. naive_solver.
  - rewrite register_entries_snoc. simpl.
    rewrite DictFacts.elem_of_keys_set, IH, fmap_app, elem_of_app. simpl.
    rewrite list_elem_of_singleton. naive_solver.
Qed.

Lemma NoDup_keys_register_entries self es :
  NoDup (Dict.keys (tool_map self)) →
  NoDup (Dict.keys (tool_map (register_entries self es))).
Proof.
  intros Hnd. induction es as [|e es IH] using rev_ind; [done|].
  rewrite register_entries_snoc. simpl. by apply DictFacts.NoDup_keys_set.
Qed.

(** Registrations under other names leave an entry in place. *)
Lemma get_register_entries_other self es n :
  (∀ e, e ∈ es → name (tool e) ≠ n) →
  Dict.get n (tool_map (register_entries self es)) = Dict.get n (tool_map self).
Proof.
  induction es as [|e es IH] using rev_ind; intros Hes; [done|].
  rewrite register_entries_snoc. simpl.
  rewrite DictFacts.get_set_ne by (apply Hes; set_solver).
  apply IH. intros e' He'. apply Hes. set_solver.
Qed.

(** Last registration wins. *)
Lemma get_register_entries_last self pre e post :
  (∀ e', e' ∈ post → name (tool e') ≠ name (tool e)) →
  Dict.get (name (tool e)) (tool_map (register_entries self (pre ++ e :: post))) = Some e.
Proof.
  intros Hpost.
  rewrite cons_middle, app_assoc.
  rewrite register_entries_app, get_register_entries_other by done.
  rewrite register_entries_snoc. simpl. destruct e. apply DictFacts.get_set_eq.
Qed.

(** Every entry of the map is a registration under its own name, or was
    there before. *)
Lemma get_register_entries_inv self es n e :
  Dict.get n (tool_map (register_entries self es)) = Some e →
  Dict.get n (tool_map self) = Some e ∨ (e ∈ es ∧ name (tool e) = n).
Proof.
  induction es as [|e' es IH] using rev_ind; intros Hget; [by left|].
  rewrite register_entries_snoc in Hget. simpl in Hget.
  destruct (decide (name (tool e') = n)) as [<-|Hne].
  - rewrite DictFacts.get_set_eq in Hget. simplify_eq. right.
    destruct e'. split; [set_solver | done].
  - rewrite DictFacts.get_set_ne in Hget by done.
    destruct (IH Hget) as [?|[? ?]]; [by left | right; set_solver].
Qed.

(** The tools grouped under a provider id are those registered with it. *)
Lemma server_tools_register_entries self es pid (t : Tool) :
  t ∈ default [] (server_tools (register_entries self es) !! pid) ↔
  t ∈ default [] (server_tools self !! pid) ∨
  ∃ e, e ∈ es ∧ cfg_id (config e) = pid ∧ tool e = t.
Proof.
  induction es as [|e es IH] using rev_ind.
  - simpl. split; [by left|]. intros [?|(e & ?%elem_of_nil & _)]; done.
  - rewrite register_entries_snoc. simpl.
    destruct (decide (cfg_id (config e) = pid)) as [<-|Hne].
    + rewrite lookup_insert_eq. simpl. rewrite elem_of_app, IH, list_elem_of_singleton.
      split.
      * intros [[?|(e' & ? & ? & ?)]| ->]; [by left | | ].
        -- right. exists e'. set_solver.
        -- right. exists e. set_solver.
      * intros [?|(e' & [?| ->%list_elem_of_singleton]%elem_of_app & ? & ?)].
        -- left. by left.
        -- left. right. by exists e'.
        -- by right.
    + rewrite lookup_insert_ne by done. rewrite IH. split.
      * intros [?|(e' & ? & ? & ?)]; [by left|]. right. exists e'. set_solver.
      * intros [?|(e' & [?| ->%list_elem_of_singleton]%elem_of_app & ? & ?)];
          [by left | right; by exists e' | done].
Qed.

(** An entry is declared exactly when some configured provider lists its
    tool. *)
Lemma elem_of_declared scan configs e :
  e ∈ declared scan configs ↔
  ∃ i tools, configs !! i = Some (config e) ∧
             scan i (server_params (config e)) = Listed tools ∧ tool e ∈ tools.
Proof.
  revert scan. induction configs as [|c configs IH]; intros scan; simpl.
  - rewrite elem_of_nil. split; [done|]. by intros (i & tools & ? & _).
  - rewrite elem_of_app, IH. split.
    + intros [He|(i & tools & Hi & Hscan & Ht)].
      * destruct (scan 0 (server_params c)) as [| | | |tools] eqn:Hscan;
          try by apply elem_of_nil in He.
        apply list_elem_of_fmap in He as (t & -> & Ht).
        exists 0, tools. by simpl.
      * exists (S i), tools. by simpl.
    + intros ([|i] & tools & Hi & Hscan & Ht); simpl in Hi.
      * left. simplify_eq. rewrite Hscan. apply list_elem_of_fmap.
        exists (tool e). by destruct e.
      * right. by exists i, tools.
Qed.

(** Each provider whose discovery fails leaves its warning line. *)
Lemma warning_printed scan configs self i c w :
  configs !! i = Some c →
  warning c (scan i (server_params c)) = Some w →
  w ∈ (initialize_loop scan configs self).2.
Proof.
  revert scan self i. induction configs as [|c0 configs IH]; intros scan self i Hi Hw;
    [done|]. simpl.
  destruct (scan_provider c0 (scan 0 (server_params c0)) self) as [self1 out1] eqn:Hscan.
  destruct (initialize_loop (λ i, scan (S i)) configs self1) as [self2 out2] eqn:Hloop.
  simpl. rewrite elem_of_app. destruct i as [|i]; simpl in Hi.
  - left. simplify_eq. unfold scan_provider in Hscan.
    destruct (scan 0 (server_params c)); simplify_eq; simpl in *; simplify_eq; set_solver.
  - right. pose proof (IH (λ i, scan (S i)) self1 i Hi Hw) as Hin.
    by rewrite Hloop in Hin.
Qed.

(** The entries of one more provider come after all the others. *)
Lemma declared_snoc scan configs c :
  declared scan (configs ++ [c]) =
  declared scan configs ++
  match scan (length configs) (server_params c) with
  | Listed tools => mkEntry c <$> tools
  | _ => []
  end.
Proof.
  revert scan. induction configs as [|c0 configs IH]; intros scan; simpl.
  - by rewrite app_nil_r.
  - by rewrite IH, app_assoc.
Qed.

(** The entry under a name comes from the last provider that lists a tool
    of that name. *)
Lemma get_declared_latest scan configs self n e :
  tool_map self = [] →
  Dict.get n (tool_map (register_entries self (declared scan configs))) = Some e →
  name (tool e) = n ∧
  ∃ k tools,
    configs !! k = Some (config e) ∧
    scan k (server_params (config e)) = Listed tools ∧ tool e ∈ tools ∧
    ∀ j c' tools' t',
      configs !! j = Some c' → scan j (server_params c') = Listed tools' →
      t' ∈ tools' → name t' = n → (j ≤ k)%nat.
Proof.
  intros Hempty. induction configs as [|c configs IH] using rev_ind.
  { simpl. by rewrite Hempty. }
  rewrite declared_snoc, register_entries_app. intros Hget.
  set (block := match scan (length configs) (server_params c) with
                | Listed tools => mkEntry c <$> tools
                | _ => []
                end) in *.
  destruct (decide (n ∈ (λ e, name (tool e)) <$> block)) as [Hin|Hout].
  - apply get_register_entries_inv in Hget as Hinv.
    assert (e ∈ block ∧ name (tool e) = n) as [He Hn].
    { destruct Hinv as [Hold|?]; [|done].
      destruct (last_occurrence (λ e, name (tool e)) block n Hin)
        as (pre & e1 & post & Hb & Hn1 & Hpost).
      rewrite Hb, <- Hn1 in Hget.
      rewrite get_register_entries_last in Hget by (by rewrite Hn1).
      simplify_eq. rewrite Hb. split; [set_solver | done]. }
    split; [done|]. unfold block in He.
    destruct (scan (length configs) (server_params c)) as [| | | |tools] eqn:Hscan;
      try by apply elem_of_nil in He.
    apply list_elem_of_fmap in He as (t & -> & Ht). simpl in *.
    exists (length configs), tools. split; [by apply list_lookup_middle|].
    split; [done|]. split; [done|].
    intros j c' tools' t' Hj _ _ _. apply lookup_lt_Some in Hj.
    rewrite length_app in Hj. simpl in Hj. lia.
  - rewrite get_register_entries_other in Hget.
    2:{ intros e' He' Hn. apply Hout. apply list_elem_of_fmap. by exists e'. }
    destruct (IH Hget) as (Hn & k & tools & Hk & Hscan & Ht & Hmax).
    split; [done|]. exists k, tools. split; [by apply lookup_app_l_Some|].
    split; [done|]. split; [done|].
    intros j c' tools' t' Hj Hscan' Ht' Hn'.
    destruct (decide (j < length configs)%nat) as [Hlt|Hge].
    + rewrite lookup_app_l in Hj by done. by eapply Hmax.
    + exfalso. apply Hout.
      assert (j = length configs) as ->.
      { apply lookup_lt_Some in Hj. rewrite length_app in Hj. simpl in Hj. lia. }
      rewrite list_lookup_middle in Hj by done. simplify_eq.
      unfold block. rewrite Hscan'. apply list_elem_of_fmap.
      exists (mkEntry c' t'). split; [done|]. apply list_elem_of_fmap. by exists t'.
Qed.

(** The catalog has exactly the names listed by the providers that
    answered. *)
Lemma keys_initialize scan configs n :
  n ∈ Dict.keys (tool_map (initialize scan (new configs)).1) ↔
  ∃ i c tools t, configs !! i = Some c ∧
                 scan i (server_params c) = Listed tools ∧ t ∈ tools ∧ name t = n.
Proof.
  rewrite initialize_declared. simpl. rewrite keys_register_entries. simpl.
  rewrite elem_of_nil, list_elem_of_fmap. split.
  - intros [[]|(e & -> & He)]. apply elem_of_declared in He as (i & tools & ? & ? & ?).
    by exists i, (config e), tools, (tool e).
  - intros (i & c & tools & t & Hi & Hscan & Ht & <-). right.
    exists (mkEntry c t). split; [done|]. apply elem_of_declared.
    by exists i, tools.
Qed.

End CatalogFacts.

(** ** The claims on catalog construction *)

Section CatalogClaims.
Context `{!Runtime}.

(** C1.  After [initialize] has processed the configured providers in
    declaration order, the keys of [tool_map] are exactly the names of the
    tools listed by the providers whose listing succeeded; the entry under
    a name is the one registered last, so it comes from the latest provider
    in declaration order that lists a tool of that name; and
    [list_all_tools] returns these keys, each once. *)
Theorem initialize_catalog_last_wins
    (scan : nat → StdioServerParameters → Discovery) (configs : list Config) :
  let self := (initialize scan (new configs)).1 in
  (∀ n, n ∈ list_all_tools self ↔
        ∃ i c tools t, configs !! i = Some c ∧
                       scan i (server_params c) = Listed tools ∧
                       t ∈ tools ∧ name t = n) ∧
  (∀ n e, Dict.get n (tool_map self) = Some e →
          name (tool e) = n ∧
          ∃ k tools,
            configs !! k = Some (config e) ∧
            scan k (server_params (config e)) = Listed tools ∧ tool e ∈ tools ∧
            ∀ j c' tools' t',
              configs !! j = Some c' → scan j (server_params c') = Listed tools' →
              t' ∈ tools' → name t' = n → (j ≤ k)%nat) ∧
  (∀ pre e post,
      declared scan configs = pre ++ e :: post →
      (∀ e', e' ∈ post → name (tool e') ≠ name (tool e)) →
      Dict.get (name (tool e)) (tool_map self) = Some e) ∧
  list_all_tools self = Dict.keys (tool_map self) ∧
  NoDup (list_all_tools self).
Proof.
  intros self. unfold self.
  split; [|rewrite initialize_declared; simpl; split; [|split; [|split]]].
  - intros n. apply keys_initialize.
  - intros n e. by apply get_declared_latest.
  - intros pre e post -> Hpost. by apply get_register_entries_last.
  - done.
  - unfold list_all_tools. apply NoDup_keys_register_entries. simpl. apply NoDup_nil_2.
Qed.

(** C8.  A provider whose connection, session, handshake or tool listing
    fails leaves a warning line and does not stop the loop: every tool of
    every provider that answered is in the catalog, under the name map and
    under its provider's id, and the catalog has no other names. *)
Theorem initialize_tolerates_failures
    (scan : nat → StdioServerParameters → Discovery) (configs : list Config) :
  let self := (initialize scan (new configs)).1 in
  let printed := (initialize scan (new configs)).2 in
  (∀ i c, configs !! i = Some c →
          (∀ tools, scan i (server_params c) ≠ Listed tools) →
          ∃ w, warning c (scan i (server_params c)) = Some w ∧
               is_warning w = true ∧ w ∈ printed) ∧
  (∀ i c tools t, configs !! i = Some c →
                  scan i (server_params c) = Listed tools → t ∈ tools →
                  is_Some (Dict.get (name t) (tool_map self)) ∧
                  t ∈ default [] (server_tools self !! cfg_id c)) ∧
  (∀ n, is_Some (Dict.get n (tool_map self)) →
        ∃ i c tools t, configs !! i = Some c ∧
                       scan i (server_params c) = Listed tools ∧
                       t ∈ tools ∧ name t = n).
Proof.
  intros self printed.
  pose proof (keys_initialize scan configs) as Hkeys. fold self in Hkeys.
  split; [|split].
  - intros i c Hi Hfail.
    assert (∃ w, warning c (scan i (server_params c)) = Some w ∧ is_warning w = true)
      as (w & Hw & Hisw).
    { destruct (scan i (server_params c)) as [| | | |tools]; simpl; eauto.
      by destruct (Hfail tools). }
    exists w. split; [done|]. split; [done|].
    unfold printed, initialize. simpl.
    pose proof (warning_printed scan configs (new configs) i c w Hi Hw) as Hin.
    destruct (initialize_loop scan configs (new configs)). by right.
  - intros i c tools t Hi Hscan Ht. split.
    + apply DictFacts.elem_of_keys_get, Hkeys. by exists i, c, tools, t.
    + unfold self. rewrite initialize_declared. simpl.
      apply server_tools_register_entries. right.
      exists (mkEntry c t). split; [|done]. apply elem_of_declared. by exists i, tools.
  - intros n Hn. by apply Hkeys, DictFacts.elem_of_keys_get.
Qed.

(** C9, as amended.  Every tool recorded under a provider id in
    [server_tools] was registered for that provider, and its name is a key
    of [tool_map].  The entry under that key is the one registered last
    under the name: the registration of the recorded tool itself when no
    later registration declared the name, and otherwise the last of the
    later registrations that did, which need not hold the recorded tool. *)
Theorem server_tools_names_in_tool_map
    (scan : nat → StdioServerParameters → Discovery) (configs : list Config)
    (pid : string) (tools : list Tool) (t : Tool) :
  let self := (initialize scan (new configs)).1 in
  server_tools self !! pid = Some tools → t ∈ tools →
  ∃ pre0 e0 post0 e,
    declared scan configs = pre0 ++ e0 :: post0 ∧
    tool e0 = t ∧ cfg_id (config e0) = pid ∧
    Dict.get (name t) (tool_map self) = Some e ∧
    name (tool e) = name t ∧
    (((∀ e', e' ∈ post0 → name (tool e') ≠ name t) ∧ e = e0) ∨
     (∃ mid post, post0 = mid ++ e :: post ∧
                  ∀ e', e' ∈ post → name (tool e') ≠ name t)).
Proof.
  intros self Hpid Ht. unfold self in *. rewrite initialize_declared in *. simpl in *.
  assert (t ∈ default [] (server_tools
            (register_entries (new configs) (declared scan configs)) !! pid)) as Hin
    by (by rewrite Hpid).
  apply server_tools_register_entries in Hin as [Hin|(e0 & He0 & Hid & <-)].
  { simpl in Hin. rewrite lookup_empty in Hin. by apply elem_of_nil in Hin. }
  apply list_elem_of_split in He0 as (pre0 & post0 & Hdecl).
  rewrite Hdecl.
  destruct (decide (name (tool e0) ∈ (λ e, name (tool e)) <$> post0)) as [Hlater|Hlast].
  - apply last_occurrence in Hlater as (mid & e & post & -> & He & Hpost).
    exists pre0, e0, (mid ++ e :: post), e.
    split; [done|]. split; [done|]. split; [done|]. split.
    + rewrite <- He.
      replace (pre0 ++ e0 :: mid ++ e :: post) with ((pre0 ++ e0 :: mid) ++ e :: post)
        by (by rewrite <- app_assoc).
      apply get_register_entries_last. by rewrite He.
    + split; [done|]. right. by exists mid, post.
  - assert (∀ e', e' ∈ post0 → name (tool e') ≠ name (tool e0)) as Hpost.
    { intros e' He' Hname. apply Hlast, list_elem_of_fmap. by exists e'. }
    exists pre0, e0, post0, e0.
    split; [done|]. split; [done|]. split; [done|]. split.
    + by apply get_register_entries_last.
    + split; [done|]. by left.
Qed.

End CatalogClaims.

(** With two providers that both list a tool [add], the name map holds
    the entry of the second provider and [list_all_tools] has the name
    once. *)
Lemma initialize_catalog_last_wins_witness :
  let self := (@initialize sample_runtime both_list_add (new two_providers)).1 in
  Dict.get "add" (tool_map self) = Some (mkEntry mixed_config add_tool_4) ∧
  list_all_tools self = ["add"; "multiply"].
Proof.
  intros self. split; [|reflexivity].
  destruct (@initialize_catalog_last_wins sample_runtime both_list_add two_providers)
    as (_ & _ & Hlast & _).
  apply (Hlast [mkEntry math_config add_tool] (mkEntry mixed_config add_tool_4)
               [mkEntry mixed_config multiply_tool]).
  - reflexivity.
  - intros e' He'. apply list_elem_of_singleton in He'. rewrite He'. discriminate.
Defined.

(** The first provider fails to start: its warning is printed, and the
    tools of the second are in the catalog. *)
Lemma initialize_tolerates_failures_witness :
  let r := @initialize sample_runtime first_fails (new two_providers) in
  InitErrorLine "mcp_server_1.py" (Text "No such file") ∈ r.2 ∧
  is_Some (Dict.get "multiply" (tool_map r.1)).
Proof.
  intros r.
  destruct (@initialize_tolerates_failures sample_runtime first_fails two_providers)
    as (Hwarn & Hlisted & _).
  split.
  - destruct (Hwarn 0 math_config) as (w & Hw & _ & Hin);
      [reflexivity | discriminate |].
    injection Hw as <-. exact Hin.
  - apply (Hlisted 1 mixed_config [add_tool_4; multiply_tool] multiply_tool);
      [reflexivity | reflexivity |]. right. left.
Defined.

(** C9, counterexample.  The tool [add] of the first provider is recorded
    under its id, and no entry of the name map holds it: the second
    provider's [add] replaced it. *)
Lemma server_tools_descriptor_overwritten :
  let self := (@initialize sample_runtime both_list_add (new two_providers)).1 in
  server_tools self !! "math" = Some [add_tool] ∧
  ¬ ∃ n e, Dict.get n (tool_map self) = Some e ∧ tool e = add_tool.
Proof.
  intros self. split; [reflexivity|].
  intros (n & e & Hget & Htool).
  apply DictFacts.get_Some_elem_of in Hget.
  change (tool_map self) with
    [("add", mkEntry mixed_config add_tool_4);
     ("multiply", mkEntry mixed_config multiply_tool)] in Hget.
  apply elem_of_cons in Hget as [Hget|Hget].
  - injection Hget as _ ->. discriminate.
  - apply list_elem_of_singleton in Hget. injection Hget as _ ->. discriminate.
Qed.

(** At the two providers that both list [add]: the tool recorded for the
    first one has its name in the map, and the entry there is the later
    registration, that of the second provider. *)
Lemma server_tools_names_in_tool_map_witness :
  let self := (@initialize sample_runtime both_list_add (new two_providers)).1 in
  ∃ pre0 e0 post0 e,
    @declared sample_runtime both_list_add two_providers = pre0 ++ e0 :: post0 ∧
    tool e0 = add_tool ∧ cfg_id (config e0) = "math" ∧
    Dict.get "add" (tool_map self) = Some e ∧
    name (tool e) = "add" ∧
    (((∀ e', e' ∈ post0 → name (tool e') ≠ "add") ∧ e = e0) ∨
     (∃ mid post, post0 = mid ++ e :: post ∧
                  ∀ e', e' ∈ post → name (tool e') ≠ "add")).
Proof.
  intros self.
  apply (@server_tools_names_in_tool_map sample_runtime both_list_add two_providers
           "math" [add_tool] add_tool); [reflexivity | left].
Defined.

(** ** Invocation *)

Section InvokeFacts.
Context `{!Runtime}.
Implicit Types (self : MultiMCP) (tool_name n : string) (args : list Value).

(** A name given with positional arguments, or one that is not shaped
    like a call, is used as it is. *)
Lemma string_form_call_verbatim tool_name args :
  args ≠ [] ∨ call_shaped tool_name = false →
  string_form_call tool_name args = OK (tool_name, args).
Proof.
  unfold string_form_call, call_shaped. intros [Hargs|Hshape].
  - rewrite bool_decide_eq_false_2; [done|]. by destruct args.
  - rewrite Hshape. by case_bool_decide.
Qed.

(** A call string without positional arguments goes through the parser:
    the outcome by what [ast.parse] returns. *)
Lemma string_form_call_parsed tool_name :
  call_shaped tool_name = true →
  string_form_call tool_name [] =
  match ast_parse (strip tool_name) with
  | Raise e => Raise (ParseError tool_name (exn_msg e))
  | OK (ast.Call (ast.Name id) eargs _) =>
      match mapM literal_eval eargs with
      | OK vs => OK (id, vs)
      | Raise e => Raise (ParseError id (exn_msg e))
      end
  | OK _ => Raise (ParseError tool_name InvalidFormat)
  end.
Proof.
  unfold string_form_call, call_shaped, string_form_body. intros ->. simpl.
  destruct (ast_parse (strip tool_name)) as [[| | |[] | | | |]|]; try done.
Qed.

(** [mapM] evaluates every element, in order. *)
Lemma mapM_OK {A B : Type} (f : A → PyResult B) (l : list A) (vs : list B) :
  mapM f l = OK vs ↔ Forall2 (λ a v, f a = OK v) l vs.
Proof.
  revert vs. induction l as [|a l IH]; intros vs; simpl.
  - split.
    + intros [= <-]. constructor.
    + intros ->%Forall2_nil_inv_l. done.
  - split.
    + destruct (f a) as [v|e] eqn:Hf; simpl; [|done].
      destruct (mapM f l) as [vs'|e] eqn:Hm; simpl; [|done].
      intros [= <-]. constructor; [done|]. by apply IH.
    + intros (v & vs' & Hf & Hm & ->)%Forall2_cons_inv_l.
      apply IH in Hm. rewrite Hf. simpl. rewrite Hm. done.
Qed.

Lemma mapM_Raise {A B : Type} (f : A → PyResult B) (l : list A) (a : A) (e : Exn) :
  a ∈ l → f a = Raise e → ∃ e', mapM f l = Raise e'.
Proof.
  intros Hin Hf. induction l as [|a0 l IH]; [by apply elem_of_nil in Hin|].
  simpl. destruct (f a0) as [v|e0] eqn:Hf0; simpl; [|by eexists].
  apply elem_of_cons in Hin as [->|Hin]; [congruence|].
  destruct (IH Hin) as [e' ->]. simpl. by eexists.
Qed.

(** The run of [function_wrapper] once the name is resolved and found. *)
Lemma function_wrapper_found self tool_name args n args' entry :
  string_form_call tool_name args = OK (n, args') →
  Dict.get n (tool_map self) = Some entry →
  function_wrapper self tool_name args =
  match build_input_payload n (inputSchema (tool entry)) args' with
  | Raise e => ([], Raise e)
  | OK params =>
      ([mkDispatch (server_params (config entry)) n params],
       normalize_output <$> session_call_tool (server_params (config entry)) n params)
  end.
Proof.
  intros Hcall Hget. unfold function_wrapper, call_tool. rewrite Hcall, Hget.
  destruct (build_input_payload n (inputSchema (tool entry)) args'); done.
Qed.

Lemma function_wrapper_absent self tool_name args n args' :
  string_form_call tool_name args = OK (n, args') →
  Dict.get n (tool_map self) = None →
  function_wrapper self tool_name args = ([], Raise (ToolNotFound n)).
Proof. intros Hcall Hget. unfold function_wrapper. by rewrite Hcall, Hget. Qed.


(** The payload built on the first branch. *)
Lemma build_input_payload_wrapped n schema inner args :
  wrapped_branch schema inner →
  build_input_payload n schema args =
  if bool_decide (length inner ≠ length args) then
    Raise (ArgumentCountError n (length inner) (length args))
  else OK (VDict [("input", VDict (Dict.of_pairs (zip (Dict.keys inner) args)))]).
Proof.
  intros (props & key & def & rest & Hprops & Hinput & Hdefs & Hinner).
  unfold build_input_payload. rewrite Hprops. simpl.
  apply DictFacts.mem_true in Hinput. rewrite Hinput. simpl. rewrite Hdefs. simpl.
  rewrite decide_True by done. simpl. rewrite Hinner. simpl.
  unfold Dict.keys. rewrite length_fmap. done.
Qed.

(** A schema of the Wrapped shape through a property named [input], whose
    referenced definition is the one listed first, takes the first branch
    with the properties of that definition. *)
Lemma wrapped_shape_branch schema key inner :
  wrapped_shape schema "input" key inner →
  first_definition schema = Some key →
  wrapped_branch schema inner.
Proof.
  intros (prop & defs & def & Hprops & _ & Hdefs & Hkey & Hinner) Hfirst.
  unfold first_definition in Hfirst. rewrite Hdefs in Hfirst.
  destruct defs as [|[key' v] rest]; [done|]. injection Hfirst as ->.
  simpl in Hkey. rewrite decide_True in Hkey by done. injection Hkey as ->.
  exists [("input", prop)], key, def, rest.
  split; [done|]. split; [by left|]. done.
Qed.



(** Once a session is opened, the outcome is the provider's answer,
    normalised, or the provider's exception: normalisation adds none. *)
Lemma function_wrapper_dispatched self tool_name args d trace r :
  function_wrapper self tool_name args = (d :: trace, r) →
  trace = [] ∧
  r = normalize_output <$> session_call_tool (d_params d) (d_tool_name d) (d_arguments d).
Proof.
  unfold function_wrapper, call_tool.
  destruct (string_form_call tool_name args) as [[n args']|e]; [|done].
  destruct (Dict.get n (tool_map self)) as [entry|]; [|done].
  destruct (build_input_payload n (inputSchema (tool entry)) args'); [|done].
  intros [= <- <- <-]. done.
Qed.

End InvokeFacts.

(** ** The claims on invocation *)

Section InvokeClaims.
Context `{!Runtime}.

(** C2.  Normalisation of a provider response never raises: it returns
    either a parsed value or the response itself.  If the stripped text of
    the first content part parses to a mapping with a key [result], the
    value under it is returned; else if the mapping has exactly one key,
    that key's value; else the mapping itself; a parsed value that is no
    mapping is returned as it is; and when parsing fails, when there is no
    content part, or when the first part carries no text, the raw response
    is returned unchanged.  In [function_wrapper], once the provider has
    been called, the outcome is its answer normalised, or its exception. *)
Theorem normalize_output_cases (result : CallToolResult) :
  ((∃ v, normalize_output result = Plain v) ∨ normalize_output result = Raw result) ∧
  (∀ text rest d v,
      content result = TextContent text :: rest →
      json_loads (strip text) = OK (VDict d) →
      Dict.get "result" d = Some v →
      normalize_output result = Plain v) ∧
  (∀ text rest k v,
      content result = TextContent text :: rest →
      json_loads (strip text) = OK (VDict [(k, v)]) →
      k ≠ "result" →
      normalize_output result = Plain v) ∧
  (∀ text rest d,
      content result = TextContent text :: rest →
      json_loads (strip text) = OK (VDict d) →
      Dict.get "result" d = None → length d ≠ 1 →
      normalize_output result = Plain (VDict d)) ∧
  (∀ text rest v,
      content result = TextContent text :: rest →
      json_loads (strip text) = OK v →
      (∀ d, v ≠ VDict d) →
      normalize_output result = Plain v) ∧
  (∀ text rest e,
      content result = TextContent text :: rest →
      json_loads (strip text) = Raise e →
      normalize_output result = Raw result) ∧
  (content result = [] → normalize_output result = Raw result) ∧
  (∀ part rest,
      content result = part :: rest → (∀ text, part ≠ TextContent text) →
      normalize_output result = Raw result) ∧
  (∀ self tool_name args d trace r,
      function_wrapper self tool_name args = (d :: trace, r) →
      trace = [] ∧
      r = normalize_output <$>
            session_call_tool (d_params d) (d_tool_name d) (d_arguments d)).
Proof.
  unfold normalize_output, parse_output.
  split; [|split; [|split; [|split; [|split; [|split; [|split; [|split]]]]]]].
  - match goal with |- context [match ?r with OK _ => _ | Raise _ => _ end] =>
      destruct r end; eauto.
  - intros text rest d v -> Hparsed Hget. simpl. rewrite Hparsed. simpl.
    assert (Dict.mem "result" d = true) as ->
      by (apply DictFacts.mem_true, DictFacts.elem_of_keys_get; eauto).
    by rewrite Hget.
  - intros text rest k v -> Hparsed Hk. simpl. rewrite Hparsed. simpl.
    assert (Dict.mem "result" [(k, v)] = false) as ->.
    { apply DictFacts.mem_false. simpl. intros ?%list_elem_of_singleton. congruence. }
    done.
  - intros text rest d -> Hparsed Hget Hlen. simpl. rewrite Hparsed. simpl.
    assert (Dict.mem "result" d = false) as ->.
    { apply DictFacts.mem_false. intros Hin%DictFacts.elem_of_keys_get.
      rewrite Hget in Hin. by destruct Hin. }
    by rewrite bool_decide_eq_false_2.
  - intros text rest v -> Hparsed Hv. simpl. rewrite Hparsed. simpl.
    destruct v; try done. by destruct (Hv entries).
  - intros text rest e -> Hparsed. simpl. by rewrite Hparsed.
  - intros ->. done.
  - intros part rest -> Hpart. simpl. destruct part; try done. by destruct (Hpart text).
  - apply function_wrapper_dispatched.
Qed.

(** C3, as amended.  The marshaler detects the Wrapped shape by the name
    of the property: the schema has exactly one top-level property, it is
    named [input], and it refers to another definition.  For a tool with
    such a schema whose referenced definition is the one listed first under
    [$defs], an invocation with as many arguments as that definition has
    properties [p1..pn] sends the payload [{"input": {p_i: args[i]}}],
    zipped in declared order, to the provider that owns the tool. *)
Theorem wrapped_schema_payload (self : MultiMCP) (tool_name : string)
    (args : list Value) (n : string) (args' : list Value) (entry : Entry)
    (key : string) (inner : PyDict Value) :
  string_form_call tool_name args = OK (n, args') →
  Dict.get n (tool_map self) = Some entry →
  wrapped_shape (inputSchema (tool entry)) "input" key inner →
  first_definition (inputSchema (tool entry)) = Some key →
  NoDup (Dict.keys inner) →
  length args' = length inner →
  let payload := VDict [("input", VDict (zip (Dict.keys inner) args'))] in
  function_wrapper self tool_name args =
  ([mkDispatch (server_params (config entry)) n payload],
   normalize_output <$> session_call_tool (server_params (config entry)) n payload).
Proof.
  intros Hcall Hget Hshape Hfirst Hnd Hlen payload.
  rewrite (function_wrapper_found _ _ _ _ _ _ Hcall Hget).
  rewrite (build_input_payload_wrapped _ _ _ _ (wrapped_shape_branch _ _ _ Hshape Hfirst)).
  rewrite bool_decide_eq_false_2 by (intros ?; congruence).
  by rewrite DictFacts.of_pairs_zip.
Qed.



(** C7.  When the tool name is absent from the catalog, the invocation
    fails with the tool-not-found error and opens no session: in
    [function_wrapper], for the name its first block yields (the given name
    itself whenever positional arguments are supplied or the name is not
    shaped like a call), before the payload is built; and in [call_tool]. *)
Theorem absent_tool_not_found (self : MultiMCP) (n : string) :
  Dict.get n (tool_map self) = None →
  (∀ tool_name args args',
      string_form_call tool_name args = OK (n, args') →
      function_wrapper self tool_name args = ([], Raise (ToolNotFound n))) ∧
  (∀ args, args ≠ [] ∨ call_shaped n = false →
           function_wrapper self n args = ([], Raise (ToolNotFound n))) ∧
  (∀ arguments,
      call_tool self n arguments =
      ([], Raise (mkExn ValueError (NotFoundOnAnyServer n)))).
Proof.
  intros Hget. split; [|split].
  - intros tool_name args args' Hcall. by apply function_wrapper_absent with args'.
  - intros args Hverbatim. apply function_wrapper_absent with args; [|done].
    by apply string_form_call_verbatim.
  - intros arguments. unfold call_tool. by rewrite Hget.
Qed.


(** C4, as amended.  Of the strings given without positional arguments,
    only those whose stripped form ends with a closing parenthesis and
    contains an opening one are parsed; every other string is the tool name
    as it stands, and no parse error is raised for it.  A string that is
    parsed and is a call of a bare name without keyword arguments whose
    positional arguments all evaluate as literals yields that name with the
    evaluated literals in order.  If it does not parse, or parses to
    something that is no call, or to a call whose callee is no bare name,
    or if some positional argument does not evaluate as a literal, it fails
    with the parse error.  Nothing is evaluated beyond literals: whenever a
    parsed string yields a name and values, the name is the callee of the
    call that [ast.parse] returned and the values are those of
    [ast.literal_eval] on its positional arguments, in order. *)
Theorem string_form_call_outcomes (tool_name : string) :
  (call_shaped tool_name = false →
   string_form_call tool_name [] = OK (tool_name, [])) ∧
  (call_shaped tool_name = true →
   (∀ id eargs vs,
       ast_parse (strip tool_name) = OK (ast.Call (ast.Name id) eargs []) →
       Forall2 (λ a v, literal_eval a = OK v) eargs vs →
       string_form_call tool_name [] = OK (id, vs)) ∧
   (∀ e, ast_parse (strip tool_name) = Raise e →
         string_form_call tool_name [] = Raise (ParseError tool_name (exn_msg e))) ∧
   (∀ x, ast_parse (strip tool_name) = OK x →
         (∀ f a k, x ≠ ast.Call f a k) →
         string_form_call tool_name [] = Raise (ParseError tool_name InvalidFormat)) ∧
   (∀ f a k, ast_parse (strip tool_name) = OK (ast.Call f a k) →
             (∀ id, f ≠ ast.Name id) →
             string_form_call tool_name [] = Raise (ParseError tool_name InvalidFormat)) ∧
   (∀ id eargs kws a e,
       ast_parse (strip tool_name) = OK (ast.Call (ast.Name id) eargs kws) →
       a ∈ eargs → literal_eval a = Raise e →
       ∃ e', string_form_call tool_name [] = Raise (ParseError id e')) ∧
   (∀ id vs,
       string_form_call tool_name [] = OK (id, vs) →
       ∃ eargs kws,
         ast_parse (strip tool_name) = OK (ast.Call (ast.Name id) eargs kws) ∧
         Forall2 (λ a v, literal_eval a = OK v) eargs vs)).
Proof.
  split.
  - intros Hshape. apply string_form_call_verbatim. by right.
  - intros Hshape.
    split; [|split; [|split; [|split; [|split]]]];
      rewrite (string_form_call_parsed _ Hshape).
    + intros id eargs vs -> Hlit. apply mapM_OK in Hlit. by rewrite Hlit.
    + by intros e ->.
    + intros x -> Hx. destruct x as [| | |f a k| | | |]; try done.
      by destruct (Hx f a k).
    + intros f a k -> Hf. destruct f as [|id| | | | | |]; try done.
      by destruct (Hf id).
    + intros id eargs kws a e -> Hin Hlit.
      destruct (mapM_Raise literal_eval eargs a e Hin Hlit) as [e' ->].
      by eexists.
    + intros id vs Hcall.
      destruct (ast_parse (strip tool_name)) as [x|e]; [|done].
      destruct x as [| | |f eargs kws| | | |]; try done.
      destruct f as [|id'| | | | | |]; try done.
      destruct (mapM literal_eval eargs) as [vs'|e] eqn:Hlit; [|done].
      injection Hcall as -> ->. exists eargs, kws. split; [done|].
      by apply mapM_OK.
Qed.

End InvokeClaims.

(** ** The claims at the sample data *)

(** The catalog used below is built from the two sample providers: it
    has [add] (wrapped schema) and [multiply] (flat schema), both owned by
    the second provider. *)

Lemma normalize_output_cases_witness :
  @normalize_output sample_runtime (mkResult [TextContent result_7_text] false)
    = Plain (VInt 7) ∧
  @normalize_output sample_runtime (mkResult [TextContent ascii_values_text] false)
    = Plain (VList [VInt 1; VInt 2; VInt 3]) ∧
  @normalize_output sample_runtime (mkResult [TextContent two_keys_text] false)
    = Plain (VDict [("a", VInt 1); ("b", VInt 2)]) ∧
  @normalize_output sample_runtime (mkResult [TextContent "not-json"] false)
    = Raw (mkResult [TextContent "not-json"] false) ∧
  @normalize_output sample_runtime (mkResult [] false) = Raw (mkResult [] false).
Proof.
  split; [|split; [|split; [|split]]].
  - destruct (@normalize_output_cases sample_runtime
                (mkResult [TextContent result_7_text] false))
      as (_ & Hresult & _).
    apply (Hresult result_7_text [] [("result", VInt 7)] (VInt 7)); reflexivity.
  - destruct (@normalize_output_cases sample_runtime
                (mkResult [TextContent ascii_values_text] false))
      as (_ & _ & Hone & _).
    apply (Hone ascii_values_text [] "ascii_values" (VList [VInt 1; VInt 2; VInt 3]));
      [reflexivity | reflexivity | discriminate].
  - destruct (@normalize_output_cases sample_runtime
                (mkResult [TextContent two_keys_text] false))
      as (_ & _ & _ & Hmany & _).
    apply (Hmany two_keys_text [] [("a", VInt 1); ("b", VInt 2)]);
      [reflexivity | reflexivity | reflexivity | discriminate].
  - destruct (@normalize_output_cases sample_runtime
                (mkResult [TextContent "not-json"] false))
      as (_ & _ & _ & _ & _ & Hfail & _).
    apply (Hfail "not-json" []
             (mkExn ValueError (Text "Expecting value: line 1 column 1 (char 0)")));
      reflexivity.
  - destruct (@normalize_output_cases sample_runtime (mkResult [] false))
      as (_ & _ & _ & _ & _ & _ & Hempty & _).
    apply Hempty. reflexivity.
Defined.

Lemma wrapped_schema_payload_witness :
  let self := (@initialize sample_runtime both_list_add (new two_providers)).1 in
  @function_wrapper sample_runtime self "add" [VInt 2; VInt 3] =
    ([mkDispatch (@server_params sample_runtime mixed_config) "add"
        (VDict [("input", VDict [("a", VInt 2); ("b", VInt 3)])])],
     OK (Plain (VInt 7))) ∧
  @function_wrapper sample_runtime self "add(45, 55)" [] =
    ([mkDispatch (@server_params sample_runtime mixed_config) "add"
        (VDict [("input", VDict [("a", VInt 45); ("b", VInt 55)])])],
     OK (Plain (VInt 7))).
Proof.
  intros self.
  assert (wrapped_shape (inputSchema add_tool_4) "input" "AddInput"
            [("a", int_property "A"); ("b", int_property "B")]) as Hwrapped.
  { exists (VDict [("$ref", VStr "#/$defs/AddInput")]), [("AddInput", AddInput_def)].
    eexists. repeat split; reflexivity. }
  assert (NoDup ["a"; "b"]) as Hnames.
  { apply NoDup_cons. split; [|apply NoDup_singleton].
    intros Hin. apply list_elem_of_singleton in Hin. discriminate. }
  split.
  - apply (@wrapped_schema_payload sample_runtime self "add" [VInt 2; VInt 3]
             "add" [VInt 2; VInt 3] (mkEntry mixed_config add_tool_4) "AddInput"
             [("a", int_property "A"); ("b", int_property "B")]);
      [reflexivity | reflexivity | exact Hwrapped | reflexivity | exact Hnames
      | reflexivity].
  - apply (@wrapped_schema_payload sample_runtime self "add(45, 55)" []
             "add" [VInt 45; VInt 55] (mkEntry mixed_config add_tool_4) "AddInput"
             [("a", int_property "A"); ("b", int_property "B")]);
      [reflexivity | reflexivity | exact Hwrapped | reflexivity | exact Hnames
      | reflexivity].
Defined.

(** C3, counterexample.  The schema of [def add(data: AddInput)] has
    exactly one top-level property, which refers to the definition
    [AddInput] with the inner properties [a] and [b]; invoked with two
    arguments, the tool is not sent [{"input": {"a": 2, "b": 3}}]: the
    schema is not unwrapped, the tool is taken to have the single parameter
    [data], and the invocation is refused. *)
Lemma wrapped_detection_by_input_key :
  wrapped_shape data_schema "data" "AddInput"
    [("a", int_property "A"); ("b", int_property "B")] ∧
  first_definition data_schema = Some "AddInput" ∧
  @function_wrapper sample_runtime (catalog_of add_data_tool) "add" [VInt 2; VInt 3] =
    ([], Raise (ArgumentCountError "add" 1 2)).
Proof.
  split; [|split; reflexivity].
  exists (VDict [("$ref", VStr "#/$defs/AddInput")]), [("AddInput", AddInput_def)].
  eexists. repeat split; reflexivity.
Qed.

Lemma string_form_call_outcomes_witness :
  @string_form_call sample_runtime "add(45, 55)" [] = OK ("add", [VInt 45; VInt 55]) ∧
  (∃ e', @string_form_call sample_runtime "add(x, 1)" [] = Raise (ParseError "add" e')) ∧
  @string_form_call sample_runtime "math.add(1, 2)" [] =
    Raise (ParseError "math.add(1, 2)" InvalidFormat) ∧
  @string_form_call sample_runtime "(45)" [] = Raise (ParseError "(45)" InvalidFormat) ∧
  @string_form_call sample_runtime "x + 1" [] = OK ("x + 1", []).
Proof.
  split; [|split; [|split; [|split]]].
  - destruct (@string_form_call_outcomes sample_runtime "add(45, 55)")
      as (_ & Hparsed).
    destruct Hparsed as (Hcall & _); [reflexivity|].
    apply (Hcall "add" [ast.Constant (VInt 45); ast.Constant (VInt 55)]);
      [reflexivity|]. repeat constructor.
  - destruct (@string_form_call_outcomes sample_runtime "add(x, 1)")
      as (_ & Hparsed).
    destruct Hparsed as (_ & _ & _ & _ & Harg & _); [reflexivity|].
    apply (Harg "add" [ast.Name "x"; ast.Constant (VInt 1)] [] (ast.Name "x")
             (mkExn ValueError (Text "malformed node or string")));
      [reflexivity | left | reflexivity].
  - destruct (@string_form_call_outcomes sample_runtime "math.add(1, 2)")
      as (_ & Hparsed).
    destruct Hparsed as (_ & _ & _ & Hcallee & _); [reflexivity|].
    apply (Hcallee (ast.Attribute (ast.Name "math") "add")
             [ast.Constant (VInt 1); ast.Constant (VInt 2)] []);
      [reflexivity | discriminate].
  - destruct (@string_form_call_outcomes sample_runtime "(45)")
      as (_ & Hparsed).
    destruct Hparsed as (_ & _ & Hnocall & _); [reflexivity|].
    apply (Hnocall (ast.Constant (VInt 45))); [reflexivity | discriminate].
  - destruct (@string_form_call_outcomes sample_runtime "x + 1") as (Hverbatim & _).
    apply Hverbatim. reflexivity.
Defined.

(** C4, counterexample.  A string that is no call and does not end with a
    closing parenthesis is not parsed and raises no parse error: it is
    taken as the tool name.  And a call whose only argument is a keyword
    argument with a name as its value parses to the callee with no
    arguments. *)
Lemma string_form_call_no_parse_error :
  @string_form_call sample_runtime "x + 1" [] = OK ("x + 1", []) ∧
  @string_form_call sample_runtime "add(a=x)" [] = OK ("add", []).
Proof. split; reflexivity. Qed.


(** C5, at the failing input.  The schema of [def echo(input: str)] is of
    the Flat shape, with the one declared property [input].  The
    invocation of [echo] with exactly one argument does not send
    [{"input": "hello"}]: the test for the name [input] takes the first
    branch, which looks for [$defs], and the invocation ends in
    [KeyError('$defs')] without a session. *)
Theorem flat_input_parameter_raises :
  flat_shape plain_input_schema
    [("input", VDict [("title", VStr "Input"); ("type", VStr "string")])] ∧
  length [VStr "hello"] =
    length [("input", VDict [("title", VStr "Input"); ("type", VStr "string")])] ∧
  @function_wrapper sample_runtime (catalog_of echo_tool) "echo" [VStr "hello"] =
    ([], Raise (mkExn KeyError (MissingKey (VStr "$defs")))).
Proof.
  split; [|split; reflexivity].
  split; [reflexivity|].
  intros p key inner (prop & defs & def & _ & _ & Hdefs & _). discriminate Hdefs.
Qed.



Lemma absent_tool_not_found_witness :
  let self := (@initialize sample_runtime both_list_add (new two_providers)).1 in
  @function_wrapper sample_runtime self "missingTool" [] =
    ([], Raise (ToolNotFound "missingTool")) ∧
  @call_tool sample_runtime self "missingTool" (VDict []) =
    ([], Raise (mkExn ValueError (NotFoundOnAnyServer "missingTool"))).
Proof.
  intros self.
  destruct (@absent_tool_not_found sample_runtime self "missingTool")
    as (_ & Hwrapper & Hcall); [reflexivity|].
  split.
  - apply Hwrapper. right. reflexivity.
  - apply Hcall.
Defined.


(** * Further properties *)

(** ** More on dictionaries *)

Module DictMore.
Section facts.
Context {V : Type}.
Implicit Types (k : string) (v : V) (d : PyDict V).

Lemma get_elem_of k v d : NoDup (Dict.keys d) → (k, v) ∈ d → Dict.get k d = Some v.
Proof.
  induction d as [|[k0 v0] d IH]; simpl; [by intros _ ?%elem_of_nil|].
  intros [Hk0 Hnd]%NoDup_cons [Heq|Hin]%elem_of_cons.
  - injection Heq as -> ->. by rewrite decide_True.
  - rewrite decide_False; [by apply IH|].
    intros ->. apply Hk0. apply list_elem_of_fmap. by exists (k, v).
Qed.

(** Two dictionaries with the same keys, in the same order, and the same
    value under every key are equal. *)
Lemma dict_ext d1 d2 :
  Dict.keys d1 = Dict.keys d2 → NoDup (Dict.keys d1) →
  (∀ k, Dict.get k d1 = Dict.get k d2) → d1 = d2.
Proof.
  revert d2. induction d1 as [|[k1 v1] d1 IH]; intros [|[k2 v2] d2]; simpl; try done.
  intros [= <- Hkeys] [Hk1 Hnd]%NoDup_cons Hget.
  pose proof (Hget k1) as Hv. rewrite !decide_True in Hv by done. injection Hv as <-.
  f_equal. apply IH; [done | done |]. intros k.
  destruct (decide (k1 = k)) as [<-|Hne].
  - assert (Dict.get k1 d1 = None) as ->.
    { destruct (Dict.get k1 d1) eqn:Hg; [|done]. destruct Hk1.
      apply DictFacts.elem_of_keys_get. by rewrite Hg. }
    symmetry. destruct (Dict.get k1 d2) eqn:Hg; [|done]. destruct Hk1.
    assert (k1 ∈ Dict.keys d2) as Hin
      by (apply DictFacts.elem_of_keys_get; by rewrite Hg).
    exact (eq_ind_r (λ l, k1 ∈ l) Hin Hkeys).
  - specialize (Hget k). by rewrite !decide_False in Hget.
Qed.

Lemma Forall_set (P : string * V → Prop) k v d :
  Forall P d → P (k, v) → Forall P (Dict.set k v d).
Proof.
  intros Hd Hkv. induction d as [|[k0 v0] d IH]; simpl.
  - by constructor.
  - apply Forall_cons in Hd as [H0 Hd].
    destruct (decide (k0 = k)) as [->|Hne]; constructor; auto.
Qed.

(** Setting a key keeps the keys that are there, in their order. *)
Lemma keys_set_prefix k v d : Dict.keys d `prefix_of` Dict.keys (Dict.set k v d).
Proof.
  destruct (decide (k ∈ Dict.keys d)) as [Hin|Hout].
  - by rewrite DictFacts.keys_set_old.
  - rewrite DictFacts.set_fresh by done. unfold Dict.keys. rewrite fmap_app.
    by apply prefix_app_r.
Qed.

Lemma keys_set k v d :
  Dict.keys (Dict.set k v d) =
  if decide (k ∈ Dict.keys d) then Dict.keys d else Dict.keys d ++ [k].
Proof.
  destruct (decide (k ∈ Dict.keys d)) as [Hin|Hout].
  - by rewrite DictFacts.keys_set_old.
  - rewrite DictFacts.set_fresh by done. unfold Dict.keys. by rewrite fmap_app.
Qed.

End facts.
End DictMore.

(** ** More on catalog construction *)

Section CatalogMore.
Context `{!Runtime}.
Implicit Types (self : MultiMCP) (e : Entry) (es : list Entry) (n pid : string).

(** Every entry sits under the name of its tool. *)
Lemma tool_map_keyed self es :
  Forall (λ kv, name (tool kv.2) = kv.1) (tool_map self) →
  Forall (λ kv, name (tool kv.2) = kv.1) (tool_map (register_entries self es)).
Proof.
  intros Hself. induction es as [|e es IH] using rev_ind; [done|].
  rewrite register_entries_snoc. simpl. by apply DictMore.Forall_set.
Qed.

Lemma keyed_names (d : PyDict Entry) :
  Forall (λ kv, name (tool kv.2) = kv.1) d →
  name <$> (tool <$> Dict.values d) = Dict.keys d.
Proof.
  induction 1 as [|[k e] d Hk Hd IH]; simpl; [done|]. simpl in Hk.
  f_equal; [done | exact IH].
Qed.

(** The group of a provider id after registering entries. *)
Lemma lookup_register_entries self es pid :
  server_tools (register_entries self es) !! pid =
  if decide (group es pid = []) then server_tools self !! pid
  else Some (default [] (server_tools self !! pid) ++ group es pid).
Proof.
  unfold group. induction es as [|e es IH] using rev_ind; [done|].
  rewrite register_entries_snoc, filter_app, fmap_app. simpl.
  destruct (decide (cfg_id (config e) = pid)) as [<-|Hne].
  - rewrite lookup_insert_eq, filter_cons_True by done. simpl.
    rewrite decide_False by (by intros [_ ?]%app_eq_nil).
    rewrite IH. case_decide as Hg; [rewrite Hg|]; simpl; by rewrite <- ?app_assoc.
  - rewrite lookup_insert_ne, filter_cons_False by done. simpl.
    rewrite app_nil_r. done.
Qed.

Lemma get_tools_from_servers_concat self (selected : list string) :
  get_tools_from_servers self selected =
  concat ((λ pid, default [] (server_tools self !! pid)) <$> selected).
Proof.
  unfold get_tools_from_servers.
  assert (∀ acc, foldl (λ tools server,
                   match server_tools self !! server with
                   | Some ts => tools ++ ts
                   | None => tools
                   end) acc selected =
                 acc ++ concat ((λ pid, default [] (server_tools self !! pid)) <$> selected))
    as Hgen; [|by rewrite Hgen].
  induction selected as [|pid selected IH]; intros acc; simpl.
  - by rewrite app_nil_r.
  - rewrite IH. destruct (server_tools self !! pid); simpl; by rewrite <- ?app_assoc.
Qed.

Lemma keys_register_entries_prefix self es :
  Dict.keys (tool_map self) `prefix_of` Dict.keys (tool_map (register_entries self es)).
Proof.
  induction es as [|e es IH] using rev_ind; [done|].
  rewrite register_entries_snoc. simpl.
  etrans; [exact IH|]. apply DictMore.keys_set_prefix.
Qed.

(** Registering under names that are all present leaves the keys alone. *)
Lemma keys_register_entries_old self es :
  (∀ e, e ∈ es → name (tool e) ∈ Dict.keys (tool_map self)) →
  Dict.keys (tool_map (register_entries self es)) = Dict.keys (tool_map self).
Proof.
  induction es as [|e es IH] using rev_ind; intros Hes; [done|].
  rewrite register_entries_snoc. simpl.
  rewrite DictFacts.keys_set_old; [apply IH; intros; apply Hes; set_solver|].
  rewrite IH by (intros; apply Hes; set_solver). apply Hes. set_solver.
Qed.

Lemma server_configs_register_entries self es :
  server_configs (register_entries self es) = server_configs self.
Proof. induction es as [|e es IH] using rev_ind; [done|]. by rewrite register_entries_snoc. Qed.

Lemma keys_first_occurrences self es :
  tool_map self = [] →
  Dict.keys (tool_map (register_entries self es)) =
  first_occurrences ((λ e, name (tool e)) <$> es).
Proof.
  intros Hempty. unfold first_occurrences.
  induction es as [|e es IH] using rev_ind; [simpl; by rewrite Hempty|].
  rewrite register_entries_snoc, fmap_app, foldl_app. simpl.
  by rewrite DictMore.keys_set, IH.
Qed.

End CatalogMore.

Section CatalogExtras.
Context `{!Runtime}.

(** [get_all_tools] after [initialize] returns one tool per catalog name,
    in the order of [list_all_tools], and each is the entry under its own
    name: a tool that a provider listed. *)
Theorem get_all_tools_one_per_name
    (scan : nat → StdioServerParameters → Discovery) (configs : list Config) :
  let self := (initialize scan (new configs)).1 in
  name <$> get_all_tools self = list_all_tools self ∧
  ∀ t, t ∈ get_all_tools self →
       ∃ e, Dict.get (name t) (tool_map self) = Some e ∧ tool e = t ∧
            e ∈ declared scan configs.
Proof.
  intros self. unfold self, get_all_tools, list_all_tools.
  rewrite initialize_declared. simpl.
  assert (Forall (λ kv : string * Entry, name (tool kv.2) = kv.1)
            (tool_map (register_entries (new configs) (declared scan configs))))
    as Hkeyed by (apply tool_map_keyed; constructor).
  split; [by apply keyed_names|].
  intros t (e & -> & He)%list_elem_of_fmap.
  apply list_elem_of_fmap in He as ([k e'] & -> & Hin). simpl.
  rewrite Forall_forall in Hkeyed. specialize (Hkeyed _ Hin). simpl in Hkeyed.
  rewrite Hkeyed. exists e'.
  assert (Dict.get k (tool_map (register_entries (new configs) (declared scan configs)))
          = Some e') as Hget.
  { apply DictMore.get_elem_of; [|done].
    apply NoDup_keys_register_entries. simpl. apply NoDup_nil_2. }
  split; [done|]. split; [done|].
  apply get_register_entries_inv in Hget as [?|[? ?]]; done.
Qed.

(** [get_tools_from_servers] after [initialize] returns, for the selected
    ids in the order given, every tool that a provider configured with that
    id listed, in listing order, tools overwritten in the name map
    included; an id that no configuration carries contributes nothing. *)
Theorem get_tools_from_servers_groups
    (scan : nat → StdioServerParameters → Discovery) (configs : list Config)
    (selected_servers : list string) :
  let self := (initialize scan (new configs)).1 in
  get_tools_from_servers self selected_servers =
    concat (group (declared scan configs) <$> selected_servers) ∧
  ∀ pid, (∀ c, c ∈ configs → cfg_id c ≠ pid) →
         get_tools_from_servers self [pid] = [].
Proof.
  intros self.
  assert (∀ pid, default [] (server_tools self !! pid) = group (declared scan configs) pid)
    as Hgroup.
  { intros pid. unfold self. rewrite initialize_declared, lookup_register_entries.
    simpl. rewrite lookup_empty. case_decide as Hg; [by rewrite Hg | done]. }
  split.
  - rewrite get_tools_from_servers_concat. f_equal.
    apply list_fmap_ext. intros _ pid _. apply Hgroup.
  - intros pid Hpid. rewrite get_tools_from_servers_concat. simpl.
    rewrite app_nil_r, Hgroup. unfold group.
    destruct (filter (λ e, cfg_id (config e) = pid) (declared scan configs))
      as [|e l] eqn:Hf; [done|].
    assert (e ∈ filter (λ e, cfg_id (config e) = pid) (declared scan configs)) as He
      by (rewrite Hf; left).
    apply list_elem_of_filter in He as [Hid He].
    apply elem_of_declared in He as (i & tools & Hi & _).
    destruct (Hpid (config e)); [|done]. by eapply list_elem_of_lookup_2.
Qed.

(** Every entry of the name map is also recorded in the group of the
    provider that owns it. *)
Theorem tool_map_entry_in_group
    (scan : nat → StdioServerParameters → Discovery) (configs : list Config)
    (n : string) (e : Entry) :
  let self := (initialize scan (new configs)).1 in
  Dict.get n (tool_map self) = Some e →
  tool e ∈ get_tools_from_servers self [cfg_id (config e)].
Proof.
  intros self Hget. rewrite get_tools_from_servers_concat. simpl. rewrite app_nil_r.
  unfold self in *. rewrite initialize_declared in *.
  apply get_register_entries_inv in Hget as [Hget|[He _]]; [done|].
  apply server_tools_register_entries. right. by exists e.
Qed.

(** Routing.  After [initialize], [call_tool] on a name opens one session,
    to the latest provider in declaration order that listed a tool of that
    name, with the name and the arguments as given, and returns what the
    session returns. *)
Theorem call_tool_routes_to_latest
    (scan : nat → StdioServerParameters → Discovery) (configs : list Config)
    (k : nat) (c : Config) (tools : list Tool) (n : string) (arguments : Value) :
  let self := (initialize scan (new configs)).1 in
  configs !! k = Some c →
  scan k (server_params c) = Listed tools →
  n ∈ name <$> tools →
  (∀ j c' tools', (k < j)%nat → configs !! j = Some c' →
                  scan j (server_params c') = Listed tools' → n ∉ name <$> tools') →
  call_tool self n arguments =
  ([mkDispatch (server_params c) n arguments],
   session_call_tool (server_params c) n arguments).
Proof.
  intros self Hk Hscan Hn Hlater.
  apply list_elem_of_fmap in Hn as (t & -> & Ht).
  assert (is_Some (Dict.get (name t) (tool_map self))) as [e He].
  { apply DictFacts.elem_of_keys_get, keys_initialize. by exists k, c, tools, t. }
  unfold call_tool. rewrite He.
  unfold self in He. rewrite initialize_declared in He.
  apply get_declared_latest in He as (Hname & k' & tools' & Hk' & Hscan' & Ht' & Hmax);
    [|done].
  assert (k ≤ k')%nat as Hle by (by eapply Hmax).
  destruct (decide (k = k')) as [<-|Hne].
  - simpl in Hk'. assert (config e = c) as -> by congruence. done.
  - destruct (Hlater k' (config e) tools'); [lia | done | done |].
    apply list_elem_of_fmap. by exists (tool e).
Qed.

(** [initialize] only adds: on any state, the keys of the name map stay
    in place, new ones coming after them, every group keeps its tools as a
    prefix, and the configurations are unchanged. *)
Theorem initialize_only_adds
    (scan : nat → StdioServerParameters → Discovery) (self : MultiMCP) :
  let self' := (initialize scan self).1 in
  list_all_tools self `prefix_of` list_all_tools self' ∧
  (∀ pid, default [] (server_tools self !! pid) `prefix_of`
          default [] (server_tools self' !! pid)) ∧
  server_configs self' = server_configs self.
Proof.
  intros self'. unfold self', list_all_tools. rewrite initialize_declared.
  split; [apply keys_register_entries_prefix|]. split.
  - intros pid. rewrite lookup_register_entries. case_decide; [done|].
    simpl. by apply prefix_app_r.
  - apply server_configs_register_entries.
Qed.

(** Running [initialize] a second time with the providers answering as
    before leaves the name map as it is and doubles every group. *)
Theorem initialize_twice
    (scan : nat → StdioServerParameters → Discovery) (configs : list Config) :
  let self1 := (initialize scan (new configs)).1 in
  let self2 := (initialize scan self1).1 in
  tool_map self2 = tool_map self1 ∧
  ∀ pid, server_tools self2 !! pid = (λ ts, ts ++ ts) <$> server_tools self1 !! pid.
Proof.
  intros self1 self2.
  assert (self1 = register_entries (new configs) (declared scan configs)) as H1
    by apply initialize_declared.
  assert (self2 = register_entries self1 (declared scan configs)) as H2.
  { unfold self2. rewrite initialize_declared. f_equal. f_equal.
    rewrite H1. apply server_configs_register_entries. }
  assert (∀ e, e ∈ declared scan configs → name (tool e) ∈ Dict.keys (tool_map self1))
    as Hold.
  { intros e He. rewrite H1. apply keys_register_entries. right.
    apply list_elem_of_fmap. by exists e. }
  split.
  - apply DictMore.dict_ext.
    + rewrite H2. by apply keys_register_entries_old.
    + rewrite H2, keys_register_entries_old by done.
      rewrite H1. apply NoDup_keys_register_entries. simpl. apply NoDup_nil_2.
    + intros n.
      destruct (decide (n ∈ (λ e, name (tool e)) <$> declared scan configs)) as [Hin|Hout].
      * destruct (last_occurrence (λ e, name (tool e)) _ n Hin)
          as (pre & e & post & Hsplit & <- & Hpost).
        rewrite H2, H1, Hsplit. by rewrite !get_register_entries_last.
      * rewrite H2. apply get_register_entries_other.
        intros e He Hn. apply Hout. apply list_elem_of_fmap. by exists e.
  - intros pid. rewrite H2, lookup_register_entries, H1, lookup_register_entries.
    simpl. rewrite lookup_empty. case_decide; simpl; done.
Qed.

(** [list_all_tools] lists the names in the order in which they were
    first declared, although each entry is the one declared last. *)
Theorem list_all_tools_first_declared
    (scan : nat → StdioServerParameters → Discovery) (configs : list Config) :
  list_all_tools (initialize scan (new configs)).1 =
  first_occurrences ((λ e, name (tool e)) <$> declared scan configs).
Proof.
  unfold list_all_tools. rewrite initialize_declared.
  by apply keys_first_occurrences.
Qed.

End CatalogExtras.

(** ** More on strings *)

Lemma lstrip_all_space (p : string) : all_space p = true → lstrip p = EmptyString.
Proof.
  induction p as [|c p IH]; simpl; [done|].
  intros [Hc Hp]%andb_prop. rewrite Hc. by apply IH.
Qed.

Lemma rstrip_all_space (p : string) : all_space p = true → rstrip p = EmptyString.
Proof.
  induction p as [|c p IH]; simpl; [done|].
  intros [Hc Hp]%andb_prop. rewrite (IH Hp). by rewrite Hc.
Qed.

Lemma lstrip_app_space (pre t : string) :
  all_space pre = true → lstrip (pre ++ t)%string = lstrip t.
Proof.
  induction pre as [|c pre IH]; simpl; [done|].
  intros [Hc Hp]%andb_prop. rewrite Hc. by apply IH.
Qed.

Lemma rstrip_app_space (t post : string) :
  all_space post = true → rstrip (t ++ post)%string = rstrip t.
Proof.
  intros Hpost. induction t as [|c t IH]; simpl.
  - by apply rstrip_all_space.
  - by rewrite IH.
Qed.

(** White space around a string does not change what [strip] returns. *)
Lemma strip_pad (pre s post : string) :
  all_space pre = true → all_space post = true →
  strip (pre ++ s ++ post)%string = strip s.
Proof.
  intros Hpre Hpost. unfold strip. rewrite lstrip_app_space by done.
  induction s as [|c s IH]; simpl.
  - by rewrite lstrip_all_space.
  - destruct (isspace c) eqn:Hc; [done|].
    change (String c (s ++ post)%string) with (String c s ++ post)%string.
    by rewrite rstrip_app_space.
Qed.

(** ** More on invocation *)

Section InvokeMore.
Context `{!Runtime}.

Lemma mapM_length {A B : Type} (f : A → PyResult B) (l : list A) (vs : list B) :
  mapM f l = OK vs → length vs = length l.
Proof. intros Hm%mapM_OK. symmetry. by eapply Forall2_length. Qed.

Lemma mapM_first_Raise {A B : Type} (f : A → PyResult B) (pre : list A) (a : A)
    (post : list A) (vs : list B) (e : Exn) :
  Forall2 (λ x v, f x = OK v) pre vs → f a = Raise e →
  mapM f (pre ++ a :: post) = Raise e.
Proof.
  intros Hpre Ha. induction Hpre as [|x v pre vs Hx Hpre IH]; simpl.
  - by rewrite Ha.
  - by rewrite Hx, IH.
Qed.

(** The payload is built from the properties that the description reads. *)
Lemma build_input_payload_props (schema : PyDict Value) (d : PyDict Value) :
  description_props schema = OK (VDict d) →
  ∃ wrap : PyDict Value → PyDict Value,
    ∀ n args,
      build_input_payload n schema args =
      if bool_decide (length d ≠ length args) then
        Raise (ArgumentCountError n (length d) (length args))
      else OK (VDict (wrap (Dict.of_pairs (zip (Dict.keys d) args)))).
Proof.
  unfold description_props, build_input_payload.
  destruct (py_in "input" (default (VDict []) (Dict.get "properties" schema)))
    as [[|]|e]; simpl; [| |done].
  - destruct (py_next_iter (default (VDict []) (Dict.get "$defs" schema)))
      as [inner_key|e]; simpl; [|done].
    destruct (Dict.get "$defs" schema) as [defs|]; simpl; [|done].
    destruct (py_getitem defs inner_key) as [inner_def|e]; simpl; [|done].
    intros ->. simpl. exists (λ p, [("input", VDict p)]). intros n args.
    unfold Dict.keys. by rewrite length_fmap.
  - destruct (Dict.get "properties" schema) as [props|]; simpl; [|done].
    intros [= ->]. simpl. exists (λ p, p). intros n args.
    unfold Dict.keys. by rewrite length_fmap.
Qed.

(** What [describe_tool] returns when it returns. *)
Lemma describe_tool_OK (t : Tool) (line : string) :
  describe_tool t = OK line →
  ∃ (d : PyDict Value) (types : list string),
    description_props (inputSchema t) = OK (VDict d) ∧
    length types = length d ∧
    line = (name t ++ "(" ++ join ", " types ++ ")  # " ++
            default "None" (description t))%string.
Proof.
  unfold describe_tool, arg_types, py_join.
  destruct (description_props (inputSchema t)) as [props|e]; simpl; [|done].
  destruct props as [| | | | | | |d]; try done. simpl.
  destruct (mapM (λ kv : string * Value, py_get kv.2 "type" (VStr "any")) d)
    as [tys|e] eqn:Htys; simpl; [|done].
  destruct (mapM (λ x : Value, match x with
                               | VStr s => OK s
                               | _ => Raise (mkExn TypeError Builtin)
                               end) tys) as [strs|e] eqn:Hstrs; simpl; [|done].
  intros [= <-]. exists d, strs. split; [done|]. split; [|done].
  apply mapM_length in Htys, Hstrs. congruence.
Qed.

(** The strings that [py_join] joins are the items themselves. *)
Lemma py_join_OK (sep : string) (xs : list Value) (joined : string) :
  py_join sep xs = OK joined →
  ∃ strs : list string, xs = VStr <$> strs ∧ joined = join sep strs.
Proof.
  unfold py_join.
  destruct (mapM (λ x : Value, match x with
                               | VStr s => OK s
                               | _ => Raise (mkExn TypeError Builtin)
                               end) xs) as [strs|e] eqn:Hstrs; simpl; [|done].
  intros [= <-]. exists strs. split; [|done].
  apply mapM_OK in Hstrs. induction Hstrs as [|x str xs strs Hx _ IH]; [done|].
  rewrite fmap_cons. f_equal; [|exact IH]. by destruct x; simplify_eq.
Qed.

(** The line of [describe_tool] is built from the types that the loop
    collects, one for each property read. *)
Lemma describe_tool_types (t : Tool) (line : string) :
  describe_tool t = OK line →
  ∃ (props : PyDict Value) (types : list string),
    description_props (inputSchema t) = OK (VDict props) ∧
    arg_types (VDict props) = OK (VStr <$> types) ∧
    length types = length props ∧
    line = (name t ++ "(" ++ join ", " types ++ ")  # " ++
            default "None" (description t))%string.
Proof.
  unfold describe_tool.
  destruct (description_props (inputSchema t)) as [props|e]; simpl; [|done].
  destruct (arg_types props) as [tys|e] eqn:Htys; simpl; [|done].
  destruct (py_join ", " tys) as [joined|e] eqn:Hjoin; simpl; [|done].
  intros [= <-]. apply py_join_OK in Hjoin as (types & -> & ->).
  destruct props as [| | | | | | |d]; try done.
  exists d, types. split; [done|]. split; [done|]. split; [|done].
  simpl in Htys. apply mapM_length in Htys. by rewrite length_fmap in Htys.
Qed.

End InvokeMore.

Section InvokeExtras.
Context `{!Runtime}.

(** An invocation opens at most one session.  Without a session the
    outcome is an exception; with one, the session goes to the provider
    that owns the name found in the catalog, its payload is a dictionary,
    and the outcome is that provider's normalised answer or its
    exception. *)
Theorem function_wrapper_sessions (self : MultiMCP) (tool_name : string)
    (args : list Value) (trace : list Dispatch) (r : PyResult Normalized) :
  function_wrapper self tool_name args = (trace, r) →
  (trace = [] ∧ ∃ e, r = Raise e) ∨
  (∃ n entry d,
      trace = [mkDispatch (server_params (config entry)) n (VDict d)] ∧
      Dict.get n (tool_map self) = Some entry ∧
      r = normalize_output <$>
            session_call_tool (server_params (config entry)) n (VDict d)).
Proof.
  unfold function_wrapper, call_tool.
  destruct (string_form_call tool_name args) as [[n args']|e];
    [|intros [= <- <-]; left; eauto].
  destruct (Dict.get n (tool_map self)) as [entry|] eqn:Hget;
    [|intros [= <- <-]; left; eauto].
  destruct (build_input_payload n (inputSchema (tool entry)) args') as [params|e]
    eqn:Hbuild; [|intros [= <- <-]; left; eauto].
  intros [= <- <-]. right.
  assert (∃ d, params = VDict d) as [d ->]; [|by exists n, entry, d].
  unfold build_input_payload in Hbuild.
  repeat match type of Hbuild with
         | (match ?x with _ => _ end) = _ => destruct x; simpl in Hbuild; try done
         | (mbind _ ?x) = _ => destruct x; simpl in Hbuild; try done
         | (if ?b then _ else _) = _ => destruct b; simpl in Hbuild; try done
         end;
    injection Hbuild as <-; eauto.
Qed.

(** Schemas on which every invocation fails, whatever the arguments: a
    schema without [properties] raises a key error for that key; a schema
    with a property named [input] and no [$defs], as a plain parameter of
    that name gives, raises it for [$defs]; and with an empty [$defs], for
    [None].  No session is opened, and [describe_tool] raises the same
    exception. *)
Theorem unusable_schemas (self : MultiMCP) (tool_name : string)
    (args : list Value) (n : string) (args' : list Value) (entry : Entry) :
  string_form_call tool_name args = OK (n, args') →
  Dict.get n (tool_map self) = Some entry →
  let schema := inputSchema (tool entry) in
  (Dict.get "properties" schema = None →
   function_wrapper self tool_name args =
     ([], Raise (mkExn KeyError (MissingKey (VStr "properties")))) ∧
   describe_tool (tool entry) = Raise (mkExn KeyError (MissingKey (VStr "properties")))) ∧
  (∀ props, Dict.get "properties" schema = Some (VDict props) →
            "input" ∈ Dict.keys props →
            Dict.get "$defs" schema = None →
            function_wrapper self tool_name args =
              ([], Raise (mkExn KeyError (MissingKey (VStr "$defs")))) ∧
            describe_tool (tool entry) = Raise (mkExn KeyError (MissingKey (VStr "$defs")))) ∧
  (∀ props, Dict.get "properties" schema = Some (VDict props) →
            "input" ∈ Dict.keys props →
            Dict.get "$defs" schema = Some (VDict []) →
            function_wrapper self tool_name args =
              ([], Raise (mkExn KeyError (MissingKey VNone))) ∧
            describe_tool (tool entry) = Raise (mkExn KeyError (MissingKey VNone))).
Proof.
  intros Hcall Hget schema.
  rewrite (function_wrapper_found _ _ _ _ _ _ Hcall Hget).
  unfold describe_tool, description_props, build_input_payload. fold schema.
  split; [|split].
  - intros Hp. rewrite Hp. simpl. rewrite Hp. done.
  - intros props Hp Hin%DictFacts.mem_true Hd.
    rewrite Hp. simpl. rewrite Hin. simpl. rewrite Hd. simpl. rewrite ?Hd. done.
  - intros props Hp Hin%DictFacts.mem_true Hd.
    rewrite Hp. simpl. rewrite Hin. simpl. rewrite Hd. simpl. rewrite ?Hd. done.
Qed.

(** The signature that [tool_description_wrapper] shows for a tool is
    made of the types that its loop collects, one for each property it
    reads, and these are exactly as many as [function_wrapper] expects
    arguments: with another number the payload is refused with that count,
    with that number it is built. *)
Theorem description_arity_agrees (t : Tool) (line : string) :
  describe_tool t = OK line →
  ∃ (props : PyDict Value) (types : list string),
    description_props (inputSchema t) = OK (VDict props) ∧
    arg_types (VDict props) = OK (VStr <$> types) ∧
    length types = length props ∧
    line = (name t ++ "(" ++ join ", " types ++ ")  # " ++
            default "None" (description t))%string ∧
    ∀ n args,
      (length args ≠ length types →
       build_input_payload n (inputSchema t) args =
       Raise (ArgumentCountError n (length types) (length args))) ∧
      (length args = length types →
       ∃ d, build_input_payload n (inputSchema t) args = OK (VDict d)).
Proof.
  intros (props & types & Hprops & Htypes & Hlen & ->)%describe_tool_types.
  exists props, types. split; [done|]. split; [done|]. split; [done|].
  split; [done|]. intros n args.
  destruct (build_input_payload_props _ _ Hprops) as [wrap Hbuild].
  rewrite Hbuild, Hlen. split; intros Hargs.
  - by rewrite bool_decide_eq_true_2 by congruence.
  - rewrite bool_decide_eq_false_2 by (intros ?; congruence). eauto.
Qed.

(** After [initialize], [tool_description_wrapper] returns one line per
    catalog name, in the order of [list_all_tools], each starting with the
    name and an opening parenthesis. *)
Theorem tool_description_lines
    (scan : nat → StdioServerParameters → Discovery) (configs : list Config)
    (lines : list string) :
  let self := (initialize scan (new configs)).1 in
  tool_description_wrapper self = OK lines →
  Forall2 (λ n line, ∃ rest, line = (n ++ "(" ++ rest)%string)
          (list_all_tools self) lines.
Proof.
  intros self Hlines. apply mapM_OK in Hlines.
  assert (list_all_tools self = name <$> get_all_tools self) as ->.
  { unfold list_all_tools, get_all_tools, self. rewrite initialize_declared.
    symmetry. apply keyed_names, tool_map_keyed. constructor. }
  apply Forall2_fmap_l. eapply Forall2_impl; [exact Hlines|].
  intros t line (d & types & _ & _ & ->)%describe_tool_OK. by eexists.
Qed.

(** One tool that cannot be described makes [tool_description_wrapper]
    raise: the exception is that of the first such tool in catalog order,
    and the lines built for the tools before it are lost. *)
Theorem tool_description_all_or_nothing (self : MultiMCP) (pre : list Tool)
    (t : Tool) (post : list Tool) (lines : list string) (e : Exn) :
  get_all_tools self = pre ++ t :: post →
  Forall2 (λ t' line, describe_tool t' = OK line) pre lines →
  describe_tool t = Raise e →
  tool_description_wrapper self = Raise e.
Proof.
  intros Hsplit Hpre Hraise. unfold tool_description_wrapper. rewrite Hsplit.
  by eapply mapM_first_Raise.
Qed.

(** Normalisation reads the first content part only, and not the error
    flag; a parsed value that it returns is the parsed text itself or a
    value stored directly in it. *)
Theorem normalize_output_reads_first_part (r1 r2 : CallToolResult) :
  (head (content r1) = head (content r2) → parse_output r1 = parse_output r2) ∧
  (∀ v, normalize_output r1 = Plain v →
        ∃ text rest parsed,
          content r1 = TextContent text :: rest ∧
          json_loads (strip text) = OK parsed ∧
          (v = parsed ∨ ∃ d k, parsed = VDict d ∧ Dict.get k d = Some v)).
Proof.
  split.
  - unfold parse_output. destruct (content r1) as [|p1 c1], (content r2) as [|p2 c2];
      simpl; try done. by intros [= ->].
  - intros v. unfold normalize_output, parse_output.
    destruct (content r1) as [|[text| |] rest]; simpl; try done.
    destruct (json_loads (strip text)) as [parsed|e] eqn:Hparsed; simpl; [|done].
    intros Hv. exists text, rest, parsed. split; [done|]. split; [done|].
    destruct parsed as [| | | | | | |d]; simpl in Hv;
      try (injection Hv as <-; by left).
    destruct (Dict.mem "result" d) eqn:Hmem.
    + destruct (Dict.get "result" d) as [v'|] eqn:Hget; simpl in Hv; [|done].
      injection Hv as <-. right. by exists d, "result".
    + destruct d as [|[k v'] [|kv d]]; simpl in Hv;
        try (injection Hv as <-; by left).
      injection Hv as <-. right. exists [(k, v')], k. split; [done|]. simpl.
      by rewrite decide_True.
Qed.

(** White space around a call string does not matter: the padded string
    yields a tool name and arguments exactly when the bare one does, and
    the same ones. *)
Theorem call_string_padding (pre s post : string)
    (r : string * list Value) :
  all_space pre = true → all_space post = true → call_shaped s = true →
  string_form_call (pre ++ s ++ post)%string [] = OK r ↔ string_form_call s [] = OK r.
Proof.
  intros Hpre Hpost Hshape.
  assert (call_shaped (pre ++ s ++ post)%string = true) as Hshape'.
  { unfold call_shaped in *. by rewrite strip_pad. }
  rewrite (string_form_call_parsed _ Hshape), (string_form_call_parsed _ Hshape').
  rewrite strip_pad by done.
  destruct (ast_parse (strip s)) as [[| | |[] | | | |]|]; done.
Qed.

(** [MultiMCP.call_tool] on a catalog name opens the session that the
    single-provider client [MCP], created with the script and the working
    directory of the owning configuration, opens for the same call; unless
    the configured directory is the empty string, which [MultiMCP] passes
    on and [MCP] replaces by the current directory. *)
Theorem call_tool_agrees_with_MCP (self : MultiMCP) (n : string) (entry : Entry)
    (arguments : Value) :
  Dict.get n (tool_map self) = Some entry →
  let client := MCP_init (Some (cfg_script (config entry)))
                         (cfg_cwd (config entry)) None in
  (cfg_cwd (config entry) ≠ Some EmptyString →
   call_tool self n arguments = MCP_call_tool client n arguments) ∧
  (cfg_cwd (config entry) = Some EmptyString →
   cwd (server_params (config entry)) = EmptyString ∧
   cwd (MCP_params client) = getcwd).
Proof.
  intros Hget client. unfold call_tool, MCP_call_tool. rewrite Hget.
  unfold client, MCP_params, MCP_init, server_params. simpl. split.
  - intros Hcwd. destruct (cfg_cwd (config entry)) as [[|a s]|]; done.
  - by intros ->.
Qed.

End InvokeExtras.

(** ** The provider tool [fibonacci_numbers] *)

(** [xs[-k]] counts from the end. *)
Lemma py_index_from_end {A : Type} (xs : list A) (k : nat) (x : A) :
  (0 < k ≤ length xs)%nat → xs !! (length xs - k)%nat = Some x →
  py_index xs (- Z.of_nat k) = OK x.
Proof.
  intros Hk Hx. unfold py_index.
  rewrite (bool_decide_eq_true_2 (- Z.of_nat k < 0)%Z) by lia.
  rewrite bool_decide_eq_true_2 by lia.
  replace (Z.to_nat (- Z.of_nat k + Z.of_nat (length xs))) with (length xs - k)%nat
    by lia.
  by rewrite Hx.
Qed.

Lemma fib_append_spec (m : nat) :
  fib_append (fib <$> seq 0 (S (S m))) = OK (fib <$> seq 0 (S (S (S m)))).
Proof.
  unfold fib_append.
  rewrite (py_index_from_end _ 1 (fib (S m))); cycle 1.
  { rewrite length_fmap, length_seq. lia. }
  { rewrite length_fmap, length_seq, list_lookup_fmap, lookup_seq_lt by lia.
    simpl. repeat f_equal; lia. }
  cbn [mbind PyResult_bind].
  rewrite (py_index_from_end _ 2 (fib m)); cycle 1.
  { rewrite length_fmap, length_seq. lia. }
  { rewrite length_fmap, length_seq, list_lookup_fmap, lookup_seq_lt by lia.
    simpl. repeat f_equal; lia. }
  cbn [mbind PyResult_bind].
  rewrite (seq_S (S (S m))), fmap_app. reflexivity.
Qed.

Lemma fib_loop_spec (rounds m : nat) :
  fib_loop rounds (fib <$> seq 0 (S (S m))) = OK (fib <$> seq 0 (rounds + S (S m))).
Proof.
  revert m. induction rounds as [|rounds IH]; intros m; [done|].
  cbn [fib_loop]. rewrite fib_append_spec. cbn [mbind PyResult_bind].
  rewrite IH. do 3 f_equal. lia.
Qed.

(** [fibonacci_numbers n] never raises and returns the first [n]
    Fibonacci numbers: none for [n <= 0], [[0]] for [n = 1]. *)
Theorem fibonacci_numbers_correct (n : Z) :
  fibonacci_numbers n = OK (fib <$> seq 0 (Z.to_nat n)).
Proof.
  unfold fibonacci_numbers. case_bool_decide as Hn.
  - by replace (Z.to_nat n) with 0%nat by lia.
  - change [0%Z; 1%Z] with (fib <$> seq 0 2). rewrite fib_loop_spec.
    cbn [mbind PyResult_bind]. f_equal.
    destruct (decide (n = 1)%Z) as [->|Hn1]; [done|].
    replace (Z.to_nat (n - 2) + 2)%nat with (Z.to_nat n) by lia.
    apply take_ge. rewrite length_fmap, length_seq. lia.
Qed.

(** ** The single-provider client and the first offending argument *)

Section ClientExtras.
Context `{!Runtime}.

Lemma MCP_params_server_params (c : Config) :
  cfg_cwd c ≠ Some EmptyString →
  MCP_params (MCP_init (Some (cfg_script c)) (cfg_cwd c) None) = server_params c.
Proof.
  intros Hcwd. unfold MCP_params, MCP_init, server_params. simpl.
  destruct (cfg_cwd c) as [[|a s]|]; done.
Qed.

Lemma group_own (c : Config) (tools : list Tool) :
  group (mkEntry c <$> tools) (cfg_id c) = tools.
Proof.
  unfold group. induction tools as [|t tools IH]; [done|].
  rewrite fmap_cons, filter_cons_True by done. simpl. f_equal. exact IH.
Qed.

(** What [MCP.list_tools] returns for a provider is what [initialize]
    registers for a configuration with the same script and directory; an
    exception that [list_tools] raises is caught by [initialize], which
    then registers nothing and prints a warning. *)
Theorem initialize_single_provider
    (scan : nat → StdioServerParameters → Discovery) (c : Config) :
  cfg_cwd c ≠ Some EmptyString →
  let client := MCP_init (Some (cfg_script c)) (cfg_cwd c) None in
  let self := (initialize scan (new [c])).1 in
  match MCP_list_tools client (scan 0) with
  | OK tools =>
      get_tools_from_servers self [cfg_id c] = tools ∧
      list_all_tools self = first_occurrences (name <$> tools)
  | Raise e =>
      tool_map self = [] ∧ server_tools self = ∅ ∧
      ∃ w, w ∈ (initialize scan (new [c])).2 ∧ is_warning w = true ∧
           warning c (scan 0 (server_params c)) = Some w
  end.
Proof.
  intros Hcwd client self. unfold MCP_list_tools, client.
  rewrite MCP_params_server_params by done.
  unfold self, initialize, initialize_loop, scan_provider. simpl.
  destruct (scan 0 (server_params c)) as [e|e|e|e|tools]; simpl;
    try (split; [done|]; split; [done|]; eexists; split;
         [|split; [|reflexivity]]; [set_solver | done]).
  rewrite foldl_register_tool. split.
  - rewrite get_tools_from_servers_concat. simpl.
    rewrite app_nil_r, lookup_register_entries, group_own. simpl.
    rewrite lookup_empty. case_decide as Hg; [by rewrite Hg | done].
  - unfold list_all_tools. rewrite keys_first_occurrences by done.
    by rewrite <- list_fmap_compose.
Qed.

(** The parse error of a call string reports the leftmost argument that
    is no literal, under the name of the callee, whatever follows it. *)
Theorem first_offending_argument (tool_name id : string)
    (pre : list ast.expr) (a : ast.expr) (post : list ast.expr)
    (kws : list (option string * ast.expr)) (vs : list Value) (e : Exn) :
  call_shaped tool_name = true →
  ast_parse (strip tool_name) = OK (ast.Call (ast.Name id) (pre ++ a :: post) kws) →
  Forall2 (λ x v, literal_eval x = OK v) pre vs →
  literal_eval a = Raise e →
  string_form_call tool_name [] = Raise (ParseError id (exn_msg e)).
Proof.
  intros Hshape Hparse Hpre Ha.
  rewrite (string_form_call_parsed _ Hshape), Hparse.
  by rewrite (mapM_first_Raise _ _ _ _ _ _ Hpre Ha).
Qed.

End ClientExtras.

(** ** The further properties at the sample data *)

Lemma tool_map_entry_in_group_witness :
  let self := (@initialize sample_runtime both_list_add (new two_providers)).1 in
  add_tool_4 ∈ @get_tools_from_servers self ["mixed"].
Proof.
  intros self.
  apply (@tool_map_entry_in_group sample_runtime both_list_add two_providers
           "add" (mkEntry mixed_config add_tool_4)).
  reflexivity.
Defined.

Lemma call_tool_routes_to_latest_witness :
  let self := (@initialize sample_runtime both_list_add (new two_providers)).1 in
  @call_tool sample_runtime self "add" (VDict []) =
  ([mkDispatch (@server_params sample_runtime mixed_config) "add" (VDict [])],
   OK (mkResult [TextContent result_7_text] false)).
Proof.
  intros self.
  apply (@call_tool_routes_to_latest sample_runtime both_list_add two_providers
           1 mixed_config [add_tool_4; multiply_tool] "add" (VDict [])).
  - reflexivity.
  - reflexivity.
  - left.
  - intros j c' tools' Hj Hlookup. destruct j as [|[|j]]; [lia | lia | discriminate].
Defined.

Lemma function_wrapper_sessions_witness :
  let self := (@initialize sample_runtime both_list_add (new two_providers)).1 in
  let payload := VDict [("a", VInt 2); ("b", VInt 3)] in
  ([mkDispatch (@server_params sample_runtime mixed_config) "multiply" payload] = [] ∧
   ∃ e, OK (Plain (VInt 7)) = Raise e) ∨
  (∃ n entry d,
      [mkDispatch (@server_params sample_runtime mixed_config) "multiply" payload] =
        [mkDispatch (@server_params sample_runtime (config entry)) n (VDict d)] ∧
      Dict.get n (tool_map self) = Some entry ∧
      OK (Plain (VInt 7)) =
        @normalize_output sample_runtime <$>
          @session_call_tool sample_runtime
            (@server_params sample_runtime (config entry)) n (VDict d)).
Proof.
  intros self payload.
  apply (@function_wrapper_sessions sample_runtime self "multiply" [VInt 2; VInt 3]).
  reflexivity.
Defined.

Lemma unusable_schemas_witness :
  @function_wrapper sample_runtime (catalog_of echo_tool) "echo" [VStr "hello"] =
    ([], Raise (mkExn KeyError (MissingKey (VStr "$defs")))) ∧
  describe_tool echo_tool = Raise (mkExn KeyError (MissingKey (VStr "$defs"))).
Proof.
  destruct (@unusable_schemas sample_runtime (catalog_of echo_tool) "echo"
              [VStr "hello"] "echo" [VStr "hello"] (mkEntry math_config echo_tool))
    as (_ & Hinput & _); [reflexivity | reflexivity |].
  apply (Hinput [("input", VDict [("title", VStr "Input"); ("type", VStr "string")])]);
    [reflexivity | left | reflexivity].
Defined.

Lemma description_arity_agrees_witness :
  ∃ (props : PyDict Value) (types : list string),
    description_props (inputSchema add_tool_4) = OK (VDict props) ∧
    arg_types (VDict props) = OK (VStr <$> types) ∧
    length types = length props ∧
    "add(integer, integer)  # Adds two numbers (server 4)." =
      (name add_tool_4 ++ "(" ++ join ", " types ++ ")  # " ++
       default "None" (description add_tool_4))%string ∧
    ∀ n args,
      (length args ≠ length types →
       build_input_payload n (inputSchema add_tool_4) args =
       Raise (ArgumentCountError n (length types) (length args))) ∧
      (length args = length types →
       ∃ d, build_input_payload n (inputSchema add_tool_4) args = OK (VDict d)).
Proof.
  apply (description_arity_agrees add_tool_4). reflexivity.
Defined.

Lemma tool_description_lines_witness :
  let self := (@initialize sample_runtime both_list_add (new two_providers)).1 in
  Forall2 (λ n line, ∃ rest, line = (n ++ "(" ++ rest)%string)
          (list_all_tools self)
          ["add(integer, integer)  # Adds two numbers (server 4).";
           "multiply(any, any)  # Multiplies two numbers."].
Proof.
  intros self.
  apply (@tool_description_lines sample_runtime both_list_add two_providers).
  reflexivity.
Defined.

Lemma tool_description_all_or_nothing_witness :
  let self := (@initialize sample_runtime (λ _ _, Listed [add_tool; echo_tool])
                 (new [math_config])).1 in
  tool_description_wrapper self = Raise (mkExn KeyError (MissingKey (VStr "$defs"))).
Proof.
  intros self.
  apply (tool_description_all_or_nothing self [add_tool] echo_tool []
           ["add(integer, integer)  # Adds two numbers."]).
  - reflexivity.
  - constructor; [reflexivity | constructor].
  - reflexivity.
Defined.

Lemma call_string_padding_witness :
  @string_form_call sample_runtime "  add(45, 55) " [] = OK ("add", [VInt 45; VInt 55]).
Proof.
  apply (@call_string_padding sample_runtime "  " "add(45, 55)" " "
           ("add", [VInt 45; VInt 55])); reflexivity.
Defined.

Lemma call_tool_agrees_with_MCP_witness :
  let self := (@initialize sample_runtime both_list_add (new two_providers)).1 in
  @call_tool sample_runtime self "add" (VDict []) =
  @MCP_call_tool sample_runtime
    (@MCP_init sample_runtime (Some "mcp_server_4.py") None None) "add" (VDict []).
Proof.
  intros self.
  destruct (@call_tool_agrees_with_MCP sample_runtime self "add"
              (mkEntry mixed_config add_tool_4) (VDict [])) as [Hagree _];
    [reflexivity|].
  apply Hagree. discriminate.
Defined.

Lemma initialize_single_provider_witness :
  let self := (@initialize sample_runtime (λ _ _, Listed [add_tool; multiply_tool])
                 (new [math_config])).1 in
  @get_tools_from_servers self ["math"] = [add_tool; multiply_tool] ∧
  list_all_tools self = first_occurrences ["add"; "multiply"].
Proof.
  intros self.
  apply (@initialize_single_provider sample_runtime
           (λ _ _, Listed [add_tool; multiply_tool]) math_config).
  discriminate.
Defined.

Lemma first_offending_argument_witness :
  @string_form_call sample_runtime "add(x, 1)" [] =
  Raise (ParseError "add" (Text "malformed node or string")).
Proof.
  apply (@first_offending_argument sample_runtime "add(x, 1)" "add"
           [] (ast.Name "x") [ast.Constant (VInt 1)] [] []
           (mkExn ValueError (Text "malformed node or string")));
    [reflexivity | reflexivity | constructor | reflexivity].
Defined.
